(** * python_code_explainer: the vetting analyzer and the restricted executor

    A shallow embedding of [src/app.py]: the deny tables, [static_checks]
    over the syntax tree that [ast.walk] enumerates, and [sandbox_run].
    The interpreter services the program calls ([ast.parse], [compile],
    [exec]) are parameters of the development; a reference instance of
    [exec] for a fragment of module-level Python is given at the end and
    used where a statement depends on what running a program does. *)

From Stdlib Require Import ZArith String Ascii List Lia.
From stdpp Require Import base tactics option list strings gmap pretty sorting.

Set Warnings "-register-all".

Local Open Scope string_scope.
Local Open Scope Z_scope.
Local Open Scope nat_scope.
Local Open Scope list_scope.

(** ** Python's abstract syntax (module [ast], grammar of CPython 3.11)

    Field order follows each class's [_fields]; the string-valued
    [type_comment] fields and [Module.type_ignores] (always empty for
    [ast.parse(code, mode="exec")]) carry no child node and are left out. *)

Module ast.

Inductive expr_context : Type := Load | Store | Del.
Inductive boolop : Type := And | Or.
Inductive operator : Type :=
  Add | Sub | Mult | MatMult | Div | Mod | Pow
  | LShift | RShift | BitOr | BitXor | BitAnd | FloorDiv.
Inductive unaryop : Type := Invert | Not | UAdd | USub.
Inductive cmpop : Type :=
  Eq | NotEq | Lt | LtE | Gt | GtE | Is | IsNot | In | NotIn.

(** The value of a [Constant] node.  Floats, complex numbers and bytes are
    kept as their literal text: no definition below computes with them. *)
Inductive constant : Type :=
  | CNone
  | CBool (b : bool)
  | CInt (z : Z)
  | CStr (s : string)
  | CBytes (literal : string)
  | CFloat (literal : string)
  | CComplex (literal : string)
  | CEllipsis.

Inductive expr : Type :=
  | BoolOp (op : boolop) (values : list expr)
  | NamedExpr (target value : expr)
  | BinOp (left : expr) (op : operator) (right : expr)
  | UnaryOp (op : unaryop) (operand : expr)
  | Lambda (args : arguments) (body : expr)
  | IfExp (test body orelse : expr)
  | Dict (keys : list (option expr)) (values : list expr)
  | Set_ (elts : list expr)
  | ListComp (elt : expr) (generators : list comprehension)
  | SetComp (elt : expr) (generators : list comprehension)
  | DictComp (key value : expr) (generators : list comprehension)
  | GeneratorExp (elt : expr) (generators : list comprehension)
  | Await (value : expr)
  | Yield (value : option expr)
  | YieldFrom (value : expr)
  | Compare (left : expr) (ops : list cmpop) (comparators : list expr)
  | Call (func : expr) (args : list expr) (keywords : list keyword)
  | FormattedValue (value : expr) (conversion : Z) (format_spec : option expr)
  | JoinedStr (values : list expr)
  | Constant (value : constant) (kind : option string)
  | Attribute (value : expr) (attr : string) (ctx : expr_context)
  | Subscript (value : expr) (slice : expr) (ctx : expr_context)
  | Starred (value : expr) (ctx : expr_context)
  | Name (id : string) (ctx : expr_context)
  | List (elts : list expr) (ctx : expr_context)
  | Tuple (elts : list expr) (ctx : expr_context)
  | Slice (lower upper step : option expr)
with keyword : Type :=
  | Keyword (arg : option string) (value : expr)
with comprehension : Type :=
  | Comprehension (target iter : expr) (ifs : list expr) (is_async : Z)
with arguments : Type :=
  | Arguments (posonlyargs args : list arg) (vararg : option arg)
      (kwonlyargs : list arg) (kw_defaults : list (option expr))
      (kwarg : option arg) (defaults : list expr)
with arg : Type :=
  | Arg (name : string) (annotation : option expr).

Inductive alias : Type := Alias (name : string) (asname : option string).

Inductive withitem : Type :=
  Withitem (context_expr : expr) (optional_vars : option expr).

Inductive pattern : Type :=
  | MatchValue (value : expr)
  | MatchSingleton (value : constant)
  | MatchSequence (patterns : list pattern)
  | MatchMapping (keys : list expr) (patterns : list pattern)
      (rest : option string)
  | MatchClass (cls : expr) (patterns : list pattern)
      (kwd_attrs : list string) (kwd_patterns : list pattern)
  | MatchStar (name : option string)
  | MatchAs (pat : option pattern) (name : option string)
  | MatchOr (patterns : list pattern).

Inductive stmt : Type :=
  | FunctionDef (name : string) (args : arguments) (body : list stmt)
      (decorator_list : list expr) (returns : option expr)
  | AsyncFunctionDef (name : string) (args : arguments) (body : list stmt)
      (decorator_list : list expr) (returns : option expr)
  | ClassDef (name : string) (bases : list expr) (keywords : list keyword)
      (body : list stmt) (decorator_list : list expr)
  | Return (value : option expr)
  | Delete (targets : list expr)
  | Assign (targets : list expr) (value : expr)
  | AugAssign (target : expr) (op : operator) (value : expr)
  | AnnAssign (target annotation : expr) (value : option expr) (simple : Z)
  | For (target iter : expr) (body orelse : list stmt)
  | AsyncFor (target iter : expr) (body orelse : list stmt)
  | While (test : expr) (body orelse : list stmt)
  | If (test : expr) (body orelse : list stmt)
  | With (items : list withitem) (body : list stmt)
  | AsyncWith (items : list withitem) (body : list stmt)
  | Match (subject : expr) (cases : list match_case)
  | Raise (exc cause : option expr)
  | Try (body : list stmt) (handlers : list excepthandler)
      (orelse finalbody : list stmt)
  | TryStar (body : list stmt) (handlers : list excepthandler)
      (orelse finalbody : list stmt)
  | Assert (test : expr) (msg : option expr)
  | Import (names : list alias)
  | ImportFrom (module_ : option string) (names : list alias)
      (level : option Z)
  | Global (names : list string)
  | Nonlocal (names : list string)
  | Expr (value : expr)
  | Pass
  | Break
  | Continue
with excepthandler : Type :=
  | ExceptHandler (type_ : option expr) (name : option string)
      (body : list stmt)
with match_case : Type :=
  | MatchCase (pat : pattern) (guard : option expr) (body : list stmt).

(** [ast.parse(code, mode="exec")] always returns a [Module]. *)
Inductive mod_ : Type := Module (body : list stmt).

(** An object of class [ast.AST]: what [ast.walk] yields. *)
Inductive AST : Type :=
  | NMod (m : mod_)
  | NStmt (s : stmt)
  | NExpr (e : expr)
  | NExprContext (c : expr_context)
  | NBoolop (o : boolop)
  | NOperator (o : operator)
  | NUnaryop (o : unaryop)
  | NCmpop (o : cmpop)
  | NComprehension (c : comprehension)
  | NExceptHandler (h : excepthandler)
  | NArguments (a : arguments)
  | NArg (a : arg)
  | NKeyword (k : keyword)
  | NAlias (a : alias)
  | NWithitem (w : withitem)
  | NMatchCase (c : match_case)
  | NPattern (p : pattern).

(** A field holding [None] or a node, and a list field whose items may be
    [None] ([Dict.keys], [arguments.kw_defaults]): [iter_child_nodes] yields
    only the [AST] instances. *)
Definition opt {A : Type} (f : A -> AST) (o : option A) : list AST :=
  match o with Some a => [f a] | None => [] end.

Definition opts {A : Type} (f : A -> AST) (l : list (option A)) : list AST :=
  flat_map (opt f) l.

Definition expr_children (e : expr) : list AST :=
  match e with
  | BoolOp op values => NBoolop op :: map NExpr values
  | NamedExpr target value => [NExpr target; NExpr value]
  | BinOp lhs op rhs => [NExpr lhs; NOperator op; NExpr rhs]
  | UnaryOp op operand => [NUnaryop op; NExpr operand]
  | Lambda args body => [NArguments args; NExpr body]
  | IfExp test body orelse => [NExpr test; NExpr body; NExpr orelse]
  | Dict keys values => opts NExpr keys ++ map NExpr values
  | Set_ elts => map NExpr elts
  | ListComp elt generators => NExpr elt :: map NComprehension generators
  | SetComp elt generators => NExpr elt :: map NComprehension generators
  | DictComp key value generators =>
      NExpr key :: NExpr value :: map NComprehension generators
  | GeneratorExp elt generators => NExpr elt :: map NComprehension generators
  | Await value => [NExpr value]
  | Yield value => opt NExpr value
  | YieldFrom value => [NExpr value]
  | Compare lhs ops comparators =>
      NExpr lhs :: map NCmpop ops ++ map NExpr comparators
  | Call func args keywords =>
      NExpr func :: map NExpr args ++ map NKeyword keywords
  | FormattedValue value _ format_spec => NExpr value :: opt NExpr format_spec
  | JoinedStr values => map NExpr values
  | Constant _ _ => []
  | Attribute value _ ctx => [NExpr value; NExprContext ctx]
  | Subscript value slice ctx => [NExpr value; NExpr slice; NExprContext ctx]
  | Starred value ctx => [NExpr value; NExprContext ctx]
  | Name _ ctx => [NExprContext ctx]
  | List elts ctx => map NExpr elts ++ [NExprContext ctx]
  | Tuple elts ctx => map NExpr elts ++ [NExprContext ctx]
  | Slice lower upper step =>
      opt NExpr lower ++ opt NExpr upper ++ opt NExpr step
  end.

Definition pattern_children (p : pattern) : list AST :=
  match p with
  | MatchValue value => [NExpr value]
  | MatchSingleton _ => []
  | MatchSequence patterns => map NPattern patterns
  | MatchMapping keys patterns _ => map NExpr keys ++ map NPattern patterns
  | MatchClass cls patterns _ kwd_patterns =>
      NExpr cls :: map NPattern patterns ++ map NPattern kwd_patterns
  | MatchStar _ => []
  | MatchAs pat _ => opt NPattern pat
  | MatchOr patterns => map NPattern patterns
  end.

Definition stmt_children (s : stmt) : list AST :=
  match s with
  | FunctionDef _ args body decorator_list returns
  | AsyncFunctionDef _ args body decorator_list returns =>
      NArguments args :: map NStmt body ++ map NExpr decorator_list
        ++ opt NExpr returns
  | ClassDef _ bases keywords body decorator_list =>
      map NExpr bases ++ map NKeyword keywords ++ map NStmt body
        ++ map NExpr decorator_list
  | Return value => opt NExpr value
  | Delete targets => map NExpr targets
  | Assign targets value => map NExpr targets ++ [NExpr value]
  | AugAssign target op value => [NExpr target; NOperator op; NExpr value]
  | AnnAssign target annotation value _ =>
      NExpr target :: NExpr annotation :: opt NExpr value
  | For target iter body orelse
  | AsyncFor target iter body orelse =>
      NExpr target :: NExpr iter :: map NStmt body ++ map NStmt orelse
  | While test body orelse
  | If test body orelse =>
      NExpr test :: map NStmt body ++ map NStmt orelse
  | With items body
  | AsyncWith items body => map NWithitem items ++ map NStmt body
  | Match subject cases => NExpr subject :: map NMatchCase cases
  | Raise exc cause => opt NExpr exc ++ opt NExpr cause
  | Try body handlers orelse finalbody
  | TryStar body handlers orelse finalbody =>
      map NStmt body ++ map NExceptHandler handlers ++ map NStmt orelse
        ++ map NStmt finalbody
  | Assert test msg => NExpr test :: opt NExpr msg
  | Import names => map NAlias names
  | ImportFrom _ names _ => map NAlias names
  | Global _ | Nonlocal _ => []
  | Expr value => [NExpr value]
  | Pass | Break | Continue => []
  end.

(** [ast.iter_child_nodes]: the direct child nodes, in [_fields] order. *)
Definition iter_child_nodes (n : AST) : list AST :=
  match n with
  | NMod (Module body) => map NStmt body
  | NStmt s => stmt_children s
  | NExpr e => expr_children e
  | NExprContext _ | NBoolop _ | NOperator _ | NUnaryop _ | NCmpop _ => []
  | NComprehension (Comprehension target iter ifs _) =>
      NExpr target :: NExpr iter :: map NExpr ifs
  | NExceptHandler (ExceptHandler type_ _ body) =>
      opt NExpr type_ ++ map NStmt body
  | NArguments (Arguments posonlyargs args vararg kwonlyargs kw_defaults
                  kwarg defaults) =>
      map NArg posonlyargs ++ map NArg args ++ opt NArg vararg
        ++ map NArg kwonlyargs ++ opts NExpr kw_defaults ++ opt NArg kwarg
        ++ map NExpr defaults
  | NArg (Arg _ annotation) => opt NExpr annotation
  | NKeyword (Keyword _ value) => [NExpr value]
  | NAlias _ => []
  | NWithitem (Withitem context_expr optional_vars) =>
      NExpr context_expr :: opt NExpr optional_vars
  | NMatchCase (MatchCase pat guard body) =>
      NPattern pat :: opt NExpr guard ++ map NStmt body
  | NPattern p => pattern_children p
  end.

(** [type(node).__name__] *)
Definition class_name (n : AST) : string :=
  match n with
  | NMod (Module _) => "Module"
  | NStmt s =>
      match s with
      | FunctionDef _ _ _ _ _ => "FunctionDef"
      | AsyncFunctionDef _ _ _ _ _ => "AsyncFunctionDef"
      | ClassDef _ _ _ _ _ => "ClassDef"
      | Return _ => "Return"
      | Delete _ => "Delete"
      | Assign _ _ => "Assign"
      | AugAssign _ _ _ => "AugAssign"
      | AnnAssign _ _ _ _ => "AnnAssign"
      | For _ _ _ _ => "For"
      | AsyncFor _ _ _ _ => "AsyncFor"
      | While _ _ _ => "While"
      | If _ _ _ => "If"
      | With _ _ => "With"
      | AsyncWith _ _ => "AsyncWith"
      | Match _ _ => "Match"
      | Raise _ _ => "Raise"
      | Try _ _ _ _ => "Try"
      | TryStar _ _ _ _ => "TryStar"
      | Assert _ _ => "Assert"
      | Import _ => "Import"
      | ImportFrom _ _ _ => "ImportFrom"
      | Global _ => "Global"
      | Nonlocal _ => "Nonlocal"
      | Expr _ => "Expr"
      | Pass => "Pass"
      | Break => "Break"
      | Continue => "Continue"
      end
  | NExpr e =>
      match e with
      | BoolOp _ _ => "BoolOp"
      | NamedExpr _ _ => "NamedExpr"
      | BinOp _ _ _ => "BinOp"
      | UnaryOp _ _ => "UnaryOp"
      | Lambda _ _ => "Lambda"
      | IfExp _ _ _ => "IfExp"
      | Dict _ _ => "Dict"
      | Set_ _ => "Set"
      | ListComp _ _ => "ListComp"
      | SetComp _ _ => "SetComp"
      | DictComp _ _ _ => "DictComp"
      | GeneratorExp _ _ => "GeneratorExp"
      | Await _ => "Await"
      | Yield _ => "Yield"
      | YieldFrom _ => "YieldFrom"
      | Compare _ _ _ => "Compare"
      | Call _ _ _ => "Call"
      | FormattedValue _ _ _ => "FormattedValue"
      | JoinedStr _ => "JoinedStr"
      | Constant _ _ => "Constant"
      | Attribute _ _ _ => "Attribute"
      | Subscript _ _ _ => "Subscript"
      | Starred _ _ => "Starred"
      | Name _ _ => "Name"
      | List _ _ => "List"
      | Tuple _ _ => "Tuple"
      | Slice _ _ _ => "Slice"
      end
  | NExprContext c =>
      match c with
      | Load => "Load"
      | Store => "Store"
      | Del => "Del"
      end
  | NBoolop o =>
      match o with
      | And => "And"
      | Or => "Or"
      end
  | NOperator o =>
      match o with
      | Add => "Add"
      | Sub => "Sub"
      | Mult => "Mult"
      | MatMult => "MatMult"
      | Div => "Div"
      | Mod => "Mod"
      | Pow => "Pow"
      | LShift => "LShift"
      | RShift => "RShift"
      | BitOr => "BitOr"
      | BitXor => "BitXor"
      | BitAnd => "BitAnd"
      | FloorDiv => "FloorDiv"
      end
  | NUnaryop o =>
      match o with
      | Invert => "Invert"
      | Not => "Not"
      | UAdd => "UAdd"
      | USub => "USub"
      end
  | NCmpop o =>
      match o with
      | Eq => "Eq"
      | NotEq => "NotEq"
      | Lt => "Lt"
      | LtE => "LtE"
      | Gt => "Gt"
      | GtE => "GtE"
      | Is => "Is"
      | IsNot => "IsNot"
      | In => "In"
      | NotIn => "NotIn"
      end
  | NComprehension _ => "comprehension"
  | NExceptHandler _ => "ExceptHandler"
  | NArguments _ => "arguments"
  | NArg _ => "arg"
  | NKeyword _ => "keyword"
  | NAlias _ => "alias"
  | NWithitem _ => "withitem"
  | NMatchCase _ => "match_case"
  | NPattern p =>
      match p with
      | MatchValue _ => "MatchValue"
      | MatchSingleton _ => "MatchSingleton"
      | MatchSequence _ => "MatchSequence"
      | MatchMapping _ _ _ => "MatchMapping"
      | MatchClass _ _ _ _ => "MatchClass"
      | MatchStar _ => "MatchStar"
      | MatchAs _ _ => "MatchAs"
      | MatchOr _ => "MatchOr"
      end
  end.

(** *** The number of nodes below a node

    [ast.walk] below runs on a work list; the node count bounds the number
    of iterations of its loop. *)

Definition osize {A : Type} (f : A -> nat) (o : option A) : nat :=
  match o with Some a => f a | None => 0 end.

Definition lsize {A : Type} (f : A -> nat) (l : list A) : nat :=
  list_sum (map f l).

Fixpoint expr_size (e : expr) : nat :=
  S match e with
    | BoolOp _ values => 1 + lsize expr_size values
    | NamedExpr target value => expr_size target + expr_size value
    | BinOp lhs _ rhs => expr_size lhs + 1 + expr_size rhs
    | UnaryOp _ operand => 1 + expr_size operand
    | Lambda args body => arguments_size args + expr_size body
    | IfExp test body orelse =>
        expr_size test + expr_size body + expr_size orelse
    | Dict keys values =>
        lsize (osize expr_size) keys + lsize expr_size values
    | Set_ elts => lsize expr_size elts
    | ListComp elt generators
    | SetComp elt generators
    | GeneratorExp elt generators =>
        expr_size elt + lsize comprehension_size generators
    | DictComp key value generators =>
        expr_size key + expr_size value + lsize comprehension_size generators
    | Await value | YieldFrom value => expr_size value
    | Yield value => osize expr_size value
    | Compare lhs ops comparators =>
        expr_size lhs + length ops + lsize expr_size comparators
    | Call func args keywords =>
        expr_size func + lsize expr_size args + lsize keyword_size keywords
    | FormattedValue value _ format_spec =>
        expr_size value + osize expr_size format_spec
    | JoinedStr values => lsize expr_size values
    | Constant _ _ => 0
    | Attribute value _ _ | Starred value _ => expr_size value + 1
    | Subscript value slice _ => expr_size value + expr_size slice + 1
    | Name _ _ => 1
    | List elts _ | Tuple elts _ => lsize expr_size elts + 1
    | Slice lower upper step =>
        osize expr_size lower + osize expr_size upper + osize expr_size step
    end
with keyword_size (k : keyword) : nat :=
  match k with Keyword _ value => S (expr_size value) end
with comprehension_size (c : comprehension) : nat :=
  match c with
  | Comprehension target iter ifs _ =>
      S (expr_size target + expr_size iter + lsize expr_size ifs)
  end
with arguments_size (a : arguments) : nat :=
  match a with
  | Arguments posonlyargs args vararg kwonlyargs kw_defaults kwarg defaults =>
      S (lsize arg_size posonlyargs + lsize arg_size args
         + osize arg_size vararg + lsize arg_size kwonlyargs
         + lsize (osize expr_size) kw_defaults + osize arg_size kwarg
         + lsize expr_size defaults)
  end
with arg_size (a : arg) : nat :=
  match a with Arg _ annotation => S (osize expr_size annotation) end.

Fixpoint pattern_size (p : pattern) : nat :=
  S match p with
    | MatchValue value => expr_size value
    | MatchSingleton _ | MatchStar _ => 0
    | MatchSequence patterns | MatchOr patterns => lsize pattern_size patterns
    | MatchMapping keys patterns _ =>
        lsize expr_size keys + lsize pattern_size patterns
    | MatchClass cls patterns _ kwd_patterns =>
        expr_size cls + lsize pattern_size patterns
        + lsize pattern_size kwd_patterns
    | MatchAs pat _ => osize pattern_size pat
    end.

Definition withitem_size (w : withitem) : nat :=
  match w with
  | Withitem context_expr optional_vars =>
      S (expr_size context_expr + osize expr_size optional_vars)
  end.

Fixpoint stmt_size (s : stmt) : nat :=
  S match s with
    | FunctionDef _ args body decorator_list returns
    | AsyncFunctionDef _ args body decorator_list returns =>
        arguments_size args + lsize stmt_size body
        + lsize expr_size decorator_list + osize expr_size returns
    | ClassDef _ bases keywords body decorator_list =>
        lsize expr_size bases + lsize keyword_size keywords
        + lsize stmt_size body + lsize expr_size decorator_list
    | Return value => osize expr_size value
    | Delete targets => lsize expr_size targets
    | Assign targets value => lsize expr_size targets + expr_size value
    | AugAssign target _ value => expr_size target + 1 + expr_size value
    | AnnAssign target annotation value _ =>
        expr_size target + expr_size annotation + osize expr_size value
    | For target iter body orelse
    | AsyncFor target iter body orelse =>
        expr_size target + expr_size iter + lsize stmt_size body
        + lsize stmt_size orelse
    | While test body orelse
    | If test body orelse =>
        expr_size test + lsize stmt_size body + lsize stmt_size orelse
    | With items body
    | AsyncWith items body => lsize withitem_size items + lsize stmt_size body
    | Match subject cases => expr_size subject + lsize match_case_size cases
    | Raise exc cause => osize expr_size exc + osize expr_size cause
    | Try body handlers orelse finalbody
    | TryStar body handlers orelse finalbody =>
        lsize stmt_size body + lsize excepthandler_size handlers
        + lsize stmt_size orelse + lsize stmt_size finalbody
    | Assert test msg => expr_size test + osize expr_size msg
    | Import names | ImportFrom _ names _ => length names
    | Global _ | Nonlocal _ | Pass | Break | Continue => 0
    | Expr value => expr_size value
    end
with excepthandler_size (h : excepthandler) : nat :=
  match h with
  | ExceptHandler type_ _ body =>
      S (osize expr_size type_ + lsize stmt_size body)
  end
with match_case_size (c : match_case) : nat :=
  match c with
  | MatchCase pat guard body =>
      S (pattern_size pat + osize expr_size guard + lsize stmt_size body)
  end.

Definition node_size (n : AST) : nat :=
  match n with
  | NMod (Module body) => S (lsize stmt_size body)
  | NStmt s => stmt_size s
  | NExpr e => expr_size e
  | NExprContext _ | NBoolop _ | NOperator _ | NUnaryop _ | NCmpop _
  | NAlias _ => 1
  | NComprehension c => comprehension_size c
  | NExceptHandler h => excepthandler_size h
  | NArguments a => arguments_size a
  | NArg a => arg_size a
  | NKeyword k => keyword_size k
  | NWithitem w => withitem_size w
  | NMatchCase c => match_case_size c
  | NPattern p => pattern_size p
  end.

(** *** [ast.walk]

    [[
    def walk(node):
        todo = deque([node])
        while todo:
            node = todo.popleft()
            todo.extend(iter_child_nodes(node))
            yield node
    ]]
    The loop is run on [fuel]; [walk] supplies the node count of the tree,
    which is exactly what the loop consumes ([walk_queue_fuel]). *)
Fixpoint walk_queue (fuel : nat) (todo : list AST) : list AST :=
  match fuel with
  | O => []
  | S fuel' =>
      match todo with
      | [] => []
      | node :: todo' => node :: walk_queue fuel' (todo' ++ iter_child_nodes node)
      end
  end.

Definition walk (node : AST) : list AST := walk_queue (node_size node) [node].

(** [child] and its reflexive-transitive closure: the nodes of a tree. *)
Definition child (n c : AST) : Prop := c ∈ iter_child_nodes n.

Inductive subnode : AST -> AST -> Prop :=
  | subnode_refl n : subnode n n
  | subnode_step n c d : child n c -> subnode c d -> subnode n d.

End ast.

(** ** Exceptions, values and the state of the process *)

(** The exception classes that occur: the builtin ones and the program's own
    [class SafetyError(Exception)] (line 38).  [SyntaxError.lineno] is an
    attribute that may hold [None].  [NotModelled] is not a Python
    exception: it is the answer of the reference interpreter on a program
    outside the fragment it covers, and nothing is stated about such runs. *)
Inductive exn : Type :=
  | SyntaxError (lineno : option Z) (msg : string)
  | ValueError (msg : string)
  | SafetyError (msg : string)
  | NameError (msg : string)
  | TypeError (msg : string)
  | KeyError (key : string)
  | NotModelled.

(** Runtime values.  [VAllowedBuiltins] is a reference to the one dict
    object bound to the module-level name [ALLOWED_BUILTINS]: every holder
    of this value sees, and can change, the same dict. *)
Inductive value : Type :=
  | VNone
  | VBool (b : bool)
  | VInt (z : Z)
  | VStr (s : string)
  | VBuiltin (name : string)
  | VAllowedBuiltins.

(** The module-level objects of [app.py] that outlive a call (lines 15-36).
    Python sets and dicts are mutable objects, so they are part of the
    state and every function reads them from it. *)
Record process : Type := Process {
  DANGEROUS_NAMES : gset string;
  DANGEROUS_ATTR_PARENTS : gset string;
  ALLOWED_BUILTINS : gmap string value
}.

(** The state right after the module body has run. *)
Definition module_init : process := {|
  DANGEROUS_NAMES :=
    {[ "exec"; "eval"; "__import__"; "open"; "compile";
       "input"; "help"; "license"; "credits";
       "os"; "sys"; "subprocess"; "shutil"; "pathlib"; "socket";
       "requests" ]};
  DANGEROUS_ATTR_PARENTS :=
    {[ "os"; "sys"; "subprocess"; "shutil"; "pathlib"; "socket" ]};
  ALLOWED_BUILTINS :=
    list_to_map (map (fun name => (name, VBuiltin name))
      [ "print"; "range"; "len"; "enumerate"; "sum"; "min"; "max";
        "sorted"; "abs"; "any"; "all"; "zip" ])
|}.

(** The objects a call of [exec] works on: the two namespace dicts and the
    stream that [sys.stdout] designates while the call runs. *)
Record frame : Type := Frame {
  f_globals : gmap string value;
  f_locals : gmap string value;
  f_stdout : string
}.

(** ** A state and exception monad *)

Inductive outcome (A : Type) : Type :=
  | Returned (a : A)
  | Raised (e : exn).
Arguments Returned {A} a.
Arguments Raised {A} e.

Definition ST (S A : Type) : Type := S -> outcome A * S.

#[global] Instance ST_ret {S : Type} : MRet (ST S) :=
  fun A a s => (Returned a, s).

#[global] Instance ST_bind {S : Type} : MBind (ST S) :=
  fun A B k m s =>
    match m s with
    | (Returned a, s') => k a s'
    | (Raised e, s') => (Raised e, s')
    end.

Definition raise {S A : Type} (e : exn) : ST S A := fun s => (Raised e, s).

Definition gets {S A : Type} (f : S -> A) : ST S A :=
  fun s => (Returned (f s), s).

Definition modify {S : Type} (f : S -> S) : ST S unit :=
  fun s => (Returned tt, f s).

(** A call that may raise and touches no state. *)
Definition lift {S A : Type} (r : exn + A) : ST S A :=
  match r with inl e => raise e | inr a => mret a end.

(** [for x in xs: body(x)] *)
Fixpoint for_each {S A : Type} (xs : list A) (body : A -> ST S unit)
    : ST S unit :=
  match xs with
  | [] => mret tt
  | x :: xs' => body x ;; for_each xs' body
  end.

(** The functions of [app.py] run on the process state. *)
Abbreviation M := (ST process).

(** ** [static_checks] (lines 41-64) *)

Definition static_checks_node (node : ast.AST) : M unit :=
  (* Import statements *)
  match node with
  | ast.NStmt (ast.Import _) | ast.NStmt (ast.ImportFrom _ _ _) =>
      raise (SafetyError "Imports are not allowed in sandbox mode.")
  | _ => mret tt
  end ;;
  (* Calls to dangerous builtins by name *)
  match node with
  | ast.NExpr (ast.Call func _ _) =>
      (* Direct name calls *)
      match func with
      | ast.Name id _ =>
          names ← gets DANGEROUS_NAMES;
          if decide (id ∈ names)
          then raise (SafetyError
                 ("Use of '" +:+ id +:+ "()' is not allowed in sandbox mode."))
          else mret tt
      | _ => mret tt
      end ;;
      (* Attribute calls *)
      match func with
      | ast.Attribute (ast.Name id _) attr _ =>
          parents ← gets DANGEROUS_ATTR_PARENTS;
          if decide (id ∈ parents)
          then raise (SafetyError
                 ("Access to '" +:+ id +:+ "." +:+ attr
                    +:+ "()' is not allowed in sandbox mode."))
          else mret tt
      | _ => mret tt
      end
  | _ => mret tt
  end ;;
  (* Attribute access like os.path, sys.modules, etc. *)
  match node with
  | ast.NExpr (ast.Attribute (ast.Name id _) attr _) =>
      parents ← gets DANGEROUS_ATTR_PARENTS;
      if decide (id ∈ parents)
      then raise (SafetyError
             ("Access to '" +:+ id +:+ "." +:+ attr
                +:+ "' is not allowed in sandbox mode."))
      else mret tt
  | _ => mret tt
  end ;;
  (* With / AsyncWith *)
  match node with
  | ast.NStmt (ast.With _ _) | ast.NStmt (ast.AsyncWith _ _) =>
      raise (SafetyError
               "with/async with blocks are not allowed in sandbox mode.")
  | _ => mret tt
  end.

Definition static_checks (tree : ast.AST) : M unit :=
  for_each (ast.walk tree) static_checks_node.

(** ** [sandbox_run] (lines 104-114) *)

Section Sandbox.

(** [ast.parse(code, mode="exec")], [compile(tree, "<sandbox>", "exec")]
    and [exec(bytecode, globals, locals)] under [redirect_stdout]: the
    interpreter's, not the program's. *)
Variable parse : string -> exn + ast.mod_.
Variable code_object : Type.
Variable compile : ast.mod_ -> exn + code_object.
Variable exec : code_object -> frame -> M frame.

Definition sandbox_run (code : string) : M string :=
  tree ← lift (parse code);
  static_checks (ast.NMod tree) ;;
  bytecode ← lift (compile tree);
  let safe_globals : gmap string value :=
    {[ "__builtins__" := VAllowedBuiltins ]} in
  let safe_locals : gmap string value := ∅ in
  let buf := EmptyString in
  fr ← exec bytecode
         {| f_globals := safe_globals; f_locals := safe_locals;
            f_stdout := buf |};
  mret (f_stdout fr).

End Sandbox.

Arguments sandbox_run parse {code_object} compile exec code.

(** ** A reference [compile] and [exec]

    CPython's evaluation of module-level code ([LOAD_NAME], [STORE_NAME],
    [STORE_SUBSCR], calls of builtin functions) on a fragment: expression
    statements, assignments and [pass], over constants, names, [+ - *],
    subscripts and calls.  Everything else answers [NotModelled]. *)

Module py.

Abbreviation R := (ST (frame * process)).

(** [str(v)], as [print] applies it.  An [int] of more than 4300 decimal
    digits is not converted ([sys.get_int_max_str_digits()]). *)
Definition str (v : value) : R string :=
  match v with
  | VNone => mret "None"
  | VBool true => mret "True"
  | VBool false => mret "False"
  | VInt z =>
      if (4300 <? Z.of_nat (String.length (pretty (Z.abs z))))%Z
      then raise (ValueError
             ("Exceeds the limit (4300 digits) for integer string "
              +:+ "conversion; use sys.set_int_max_str_digits() to "
              +:+ "increase the limit"))
      else mret (pretty z)
  | VStr s => mret s
  | VBuiltin _ | VAllowedBuiltins => raise NotModelled
  end.

(** [type(v).__name__] *)
Definition type_name (v : value) : string :=
  match v with
  | VNone => "NoneType"
  | VBool _ => "bool"
  | VInt _ => "int"
  | VStr _ => "str"
  | VBuiltin name =>
      if decide (name ∈ ["range"; "enumerate"; "zip"])
      then "type" else "builtin_function_or_method"
  | VAllowedBuiltins => "dict"
  end.

(** [sys.stdout.write(s)] *)
Definition write (s : string) : R unit :=
  modify (fun '(fr, σ) =>
    ({| f_globals := f_globals fr; f_locals := f_locals fr;
        f_stdout := f_stdout fr +:+ s |}, σ)).

(** [LOAD_NAME]: the locals, then the globals, then the builtins, which
    are the object stored under [globals["__builtins__"]]. *)
Definition load_name (id : string) : R value :=
  '(fr, σ) ← gets (fun s => s);
  match f_locals fr !! id with
  | Some v => mret v
  | None =>
      match f_globals fr !! id with
      | Some v => mret v
      | None =>
          match f_globals fr !! "__builtins__" with
          | Some VAllowedBuiltins =>
              match ALLOWED_BUILTINS σ !! id with
              | Some v => mret v
              | None =>
                  raise (NameError ("name '" +:+ id +:+ "' is not defined"))
              end
          | _ => raise NotModelled
          end
      end
  end.

(** [STORE_NAME]: module-level code binds in the locals. *)
Definition store_name (id : string) (v : value) : R unit :=
  modify (fun '(fr, σ) =>
    ({| f_globals := f_globals fr; f_locals := <[id := v]> (f_locals fr);
        f_stdout := f_stdout fr |}, σ)).

Definition binop (op : ast.operator) (a b : value) : R value :=
  match op, a, b with
  | ast.Add, VInt x, VInt y => mret (VInt (x + y))
  | ast.Sub, VInt x, VInt y => mret (VInt (x - y))
  | ast.Mult, VInt x, VInt y => mret (VInt (x * y))
  | ast.Add, VStr x, VStr y => mret (VStr (x +:+ y))
  | _, _, _ => raise NotModelled
  end.

(** [obj[key]] and [obj[key] = v] on the one dict a program can reach. *)
Definition getitem (obj key : value) : R value :=
  match obj, key with
  | VAllowedBuiltins, VStr k =>
      '(_, σ) ← gets (fun s => s);
      match ALLOWED_BUILTINS σ !! k with
      | Some v => mret v
      | None => raise (KeyError k)
      end
  | _, _ => raise NotModelled
  end.

Definition setitem (obj key v : value) : R unit :=
  match obj, key with
  | VAllowedBuiltins, VStr k =>
      modify (fun '(fr, σ) =>
        (fr, {| DANGEROUS_NAMES := DANGEROUS_NAMES σ;
                DANGEROUS_ATTR_PARENTS := DANGEROUS_ATTR_PARENTS σ;
                ALLOWED_BUILTINS := <[k := v]> (ALLOWED_BUILTINS σ) |}))
  | _, _ => raise NotModelled
  end.

(** [" ".join(map(str, args))] *)
Fixpoint join_str (args : list value) : R string :=
  match args with
  | [] => mret EmptyString
  | [v] => str v
  | v :: rest => s ← str v; t ← join_str rest; mret (s +:+ " " +:+ t)
  end.

Definition call (f : value) (args : list value) : R value :=
  match f with
  | VBuiltin "print" =>
      s ← join_str args; write (s +:+ String "010" EmptyString) ;; mret VNone
  | VBuiltin "abs" =>
      match args with
      | [VInt z] => mret (VInt (Z.abs z))
      | _ => raise NotModelled
      end
  | VBuiltin _ => raise NotModelled
  | _ =>
      raise (TypeError ("'" +:+ type_name f +:+ "' object is not callable"))
  end.

Fixpoint eval (e : ast.expr) : R value :=
  match e with
  | ast.Constant c _ =>
      match c with
      | ast.CNone => mret VNone
      | ast.CBool b => mret (VBool b)
      | ast.CInt z => mret (VInt z)
      | ast.CStr s => mret (VStr s)
      | _ => raise NotModelled
      end
  | ast.Name id ast.Load =>
      if decide (id = "__debug__") then raise NotModelled else load_name id
  | ast.BinOp lhs op rhs => a ← eval lhs; b ← eval rhs; binop op a b
  | ast.Subscript obj key ast.Load =>
      o ← eval obj; k ← eval key; getitem o k
  | ast.Call func args [] =>
      f ← eval func;
      vs ← (fix eval_args (l : list ast.expr) : R (list value) :=
              match l with
              | [] => mret []
              | a :: l' => v ← eval a; vs ← eval_args l'; mret (v :: vs)
              end) args;
      call f vs
  | _ => raise NotModelled
  end.

Definition store (target : ast.expr) (v : value) : R unit :=
  match target with
  | ast.Name id ast.Store =>
      if decide (id = "__debug__") then raise NotModelled else store_name id v
  | ast.Subscript obj key ast.Store =>
      o ← eval obj; k ← eval key; setitem o k v
  | _ => raise NotModelled
  end.

Definition exec_stmt (s : ast.stmt) : R unit :=
  match s with
  | ast.Expr e => _ ← eval e; mret tt
  | ast.Assign targets e => v ← eval e; for_each targets (fun t => store t v)
  | ast.Pass => mret tt
  | _ => raise NotModelled
  end.

Definition in_fragment (s : ast.stmt) : bool :=
  match s with
  | ast.Expr _ | ast.Assign _ _ | ast.Pass => true
  | _ => false
  end.

(** The code object is the tree itself; a module with a statement outside
    the fragment is refused before anything runs. *)
Definition compile (tree : ast.mod_) : exn + ast.mod_ :=
  match tree with
  | ast.Module body =>
      if forallb in_fragment body then inr tree else inl NotModelled
  end.

Definition exec (bytecode : ast.mod_) (fr : frame) : M frame :=
  fun σ =>
    match bytecode with
    | ast.Module body =>
        match for_each body exec_stmt (fr, σ) with
        | (Returned _, (fr', σ')) => (Returned fr', σ')
        | (Raised e, (_, σ')) => (Raised e, σ')
        end
    end.

End py.

(** ** [str.strip()] on ASCII text (used by the test at line 12 of
    [tests/test_sandbox.py] and at line 220) *)

Definition isspace (c : ascii) : bool :=
  let n := nat_of_ascii c in
  ((9 <=? n) && (n <=? 13)) || ((28 <=? n) && (n <=? 32)).

Fixpoint lstrip (s : string) : string :=
  match s with
  | String c s' => if isspace c then lstrip s' else s
  | EmptyString => EmptyString
  end.

Definition rstrip (s : string) : string := String.rev (lstrip (String.rev s)).

Definition strip (s : string) : string := rstrip (lstrip s).

(** A message names an identifier when the identifier occurs in it. *)
Definition names (msg id : string) : Prop :=
  exists before after, msg = before +:+ id +:+ after.

Fixpoint is_prefix (p s : string) : bool :=
  match p, s with
  | EmptyString, _ => true
  | String a p', String b s' => if decide (a = b) then is_prefix p' s' else false
  | String _ _, EmptyString => false
  end.

Fixpoint occurs (id msg : string) : bool :=
  is_prefix id msg
  || match msg with
     | EmptyString => false
     | String _ msg' => occurs id msg'
     end.

(** ** [ast.parse] on the sources used below

    The parser is CPython's.  The trees are those [ast.dump] prints for
    each source under CPython 3.11, and the two failures are the exceptions
    it raises there; on any other text the table answers [NotModelled]. *)

Module cpython.

Import ast.

Definition nl : string := String "010" EmptyString.
Definition nul : string := String "000" EmptyString.

Definition num (z : Z) : expr := Constant (CInt z) None.
Definition text (s : string) : expr := Constant (CStr s) None.

(** [print(2 + 2)] *)
Definition print_2_2 : mod_ :=
  Module [Expr (Call (Name "print" Load) [BinOp (num 2) Add (num 2)] [])].

(** [import os] then [eval('1')] on the next line *)
Definition import_then_eval : mod_ :=
  Module [Import [Alias "os" None];
          Expr (Call (Name "eval" Load) [text "1"] [])].

(** [eval(os.system('ls'))] *)
Definition eval_of_os_system : mod_ :=
  Module [Expr (Call (Name "eval" Load)
                  [Call (Attribute (Name "os" Load) "system" Load)
                     [text "ls"] []] [])].

(** [os.system('ls')] *)
Definition os_system : mod_ :=
  Module [Expr (Call (Attribute (Name "os" Load) "system" Load)
                  [text "ls"] [])].

(** [p = os.path] *)
Definition read_os_path : mod_ :=
  Module [Assign [Name "p" Store] (Attribute (Name "os" Load) "path" Load)].

(** [requests.get('http://x')] *)
Definition requests_get : mod_ :=
  Module [Expr (Call (Attribute (Name "requests" Load) "get" Load)
                  [text "http://x"] [])].

(** [requests('http://x')] *)
Definition requests_call : mod_ :=
  Module [Expr (Call (Name "requests" Load) [text "http://x"] [])].

(** [x = eval] *)
Definition x_is_eval : mod_ :=
  Module [Assign [Name "x" Store] (Name "eval" Load)].

(** [x = 5] *)
Definition x_is_5 : mod_ := Module [Assign [Name "x" Store] (num 5)].

(** [print(x)] *)
Definition print_x : mod_ :=
  Module [Expr (Call (Name "print" Load) [Name "x" Load] [])].

(** [__builtins__['leak'] = 42] *)
Definition set_leak : mod_ :=
  Module [Assign [Subscript (Name "__builtins__" Load) (text "leak") Store]
            (num 42)].

(** [print(leak)] *)
Definition print_leak : mod_ :=
  Module [Expr (Call (Name "print" Load) [Name "leak" Load] [])].

(** [__builtins__['print'] = 0] *)
Definition set_print : mod_ :=
  Module [Assign [Subscript (Name "__builtins__" Load) (text "print") Store]
            (num 0)].

(** [with open('f') as f:] with body [pass] *)
Definition with_open : mod_ :=
  Module [With [Withitem (Call (Name "open" Load) [text "f"] [])
                  (Some (Name "f" Store))]
            [Pass]].

(** [with lock:] with body [pass] *)
Definition with_lock : mod_ :=
  Module [With [Withitem (Name "lock" Load) None] [Pass]].

Definition known : list (string * (exn + mod_)) :=
  [ ("print(2 + 2)", inr print_2_2);
    ("import os" +:+ nl +:+ "eval('1')", inr import_then_eval);
    ("eval(os.system('ls'))", inr eval_of_os_system);
    ("os.system('ls')", inr os_system);
    ("p = os.path", inr read_os_path);
    ("requests.get('http://x')", inr requests_get);
    ("requests('http://x')", inr requests_call);
    ("x = eval", inr x_is_eval);
    ("x = 5", inr x_is_5);
    ("print(x)", inr print_x);
    ("__builtins__['leak'] = 42", inr set_leak);
    ("print(leak)", inr print_leak);
    ("__builtins__['print'] = 0", inr set_print);
    ("with open('f') as f:" +:+ nl +:+ "    pass", inr with_open);
    ("with lock:" +:+ nl +:+ "    pass", inr with_lock);
    ("print(2 + 2", inl (SyntaxError (Some 1%Z) "'(' was never closed"));
    (nul, inl (ValueError "source code string cannot contain null bytes")) ].

Definition parse (code : string) : exn + mod_ :=
  match find (fun entry => String.eqb (fst entry) code) known with
  | Some (_, answer) => answer
  | None => inl NotModelled
  end.

End cpython.

(** [sandbox_run] with the tabulated parser and the reference [compile] and
    [exec]. *)
Abbreviation sandbox_run_cpython :=
  (sandbox_run cpython.parse py.compile py.exec).

(** The node shapes that [static_checks] looks at: import statements,
    [with] blocks, calls whose callee is a bare name, and attribute
    accesses (called or not) whose root is a bare name. *)
Definition inspected (node : ast.AST) : bool :=
  match node with
  | ast.NStmt (ast.Import _) | ast.NStmt (ast.ImportFrom _ _ _)
  | ast.NStmt (ast.With _ _) | ast.NStmt (ast.AsyncWith _ _)
  | ast.NExpr (ast.Call (ast.Name _ _) _ _)
  | ast.NExpr (ast.Call (ast.Attribute (ast.Name _ _) _ _) _ _)
  | ast.NExpr (ast.Attribute (ast.Name _ _) _ _) => true
  | _ => false
  end.

(** The nodes that fail a check, rule by rule (lines 45-63). *)
Definition rejected (σ : process) (node : ast.AST) : bool :=
  match node with
  | ast.NStmt (ast.Import _) | ast.NStmt (ast.ImportFrom _ _ _)
  | ast.NStmt (ast.With _ _) | ast.NStmt (ast.AsyncWith _ _) => true
  | ast.NExpr (ast.Call (ast.Name id _) _ _) =>
      bool_decide (id ∈ DANGEROUS_NAMES σ)
  | ast.NExpr (ast.Call (ast.Attribute (ast.Name id _) _ _) _ _)
  | ast.NExpr (ast.Attribute (ast.Name id _) _ _) =>
      bool_decide (id ∈ DANGEROUS_ATTR_PARENTS σ)
  | _ => false
  end.

(** A direct call of the bare name [id], or an attribute access, called or
    not, whose root is the bare name [id]: the three shapes in which
    [static_checks] compares a name with a deny table. *)
Definition calls_or_accesses (id : string) (node : ast.AST) : Prop :=
  match node with
  | ast.NExpr (ast.Call (ast.Name id' _) _ _)
  | ast.NExpr (ast.Call (ast.Attribute (ast.Name id' _) _ _) _ _)
  | ast.NExpr (ast.Attribute (ast.Name id' _) _ _) => id' = id
  | _ => False
  end.

(** [x = eval], [print(x)] and [print(eval)] on three lines, as CPython 3.11
    parses them. *)
Definition eval_by_name : ast.mod_ :=
  ast.Module
    [ast.Assign [ast.Name "x" ast.Store] (ast.Name "eval" ast.Load);
     ast.Expr (ast.Call (ast.Name "print" ast.Load)
                 [ast.Name "x" ast.Load] []);
     ast.Expr (ast.Call (ast.Name "print" ast.Load)
                 [ast.Name "eval" ast.Load] [])].

(** ** [analyze_code_structure] (lines 66-102)

    The dict [info] has a fixed set of keys: a record.  Its [calls] entry is
    a set while the loop runs and the sorted list of that set at the end. *)

Record function_info : Type := FunctionInfo {
  fn_name : string;
  fn_params : list string
}.

Record info (C : Type) : Type := Info {
  functions : list function_info;
  classes : list string;
  assignments : nat;
  loops : nat;
  conditionals : nat;
  returns : nat;
  calls : C;
  imports : nat
}.
Arguments Info {C}.
Arguments functions {C}.
Arguments classes {C}.
Arguments assignments {C}.
Arguments loops {C}.
Arguments conditionals {C}.
Arguments returns {C}.
Arguments calls {C}.
Arguments imports {C}.

Definition info_init : info (gset string) :=
  {| functions := []; classes := []; assignments := 0; loops := 0;
     conditionals := 0; returns := 0; calls := ∅; imports := 0 |}.

(** [[a.arg for a in node.args.args]] *)
Definition positional_params (a : ast.arguments) : list string :=
  match a with
  | ast.Arguments _ args _ _ _ _ _ =>
      map (fun a => match a with ast.Arg name _ => name end) args
  end.

(** [info["calls"].add(name)] *)
Definition add_call (name : string) (i : info (gset string))
    : info (gset string) :=
  {| functions := functions i; classes := classes i;
     assignments := assignments i; loops := loops i;
     conditionals := conditionals i; returns := returns i;
     calls := {[ name ]} ∪ calls i; imports := imports i |}.

(** The body of the loop: the [if]/[elif] chain on the class of the node. *)
Definition analyze_node (i : info (gset string)) (node : ast.AST)
    : info (gset string) :=
  match node with
  | ast.NStmt (ast.FunctionDef name args _ _ _) =>
      let params := positional_params args in
      {| functions :=
           functions i ++ [{| fn_name := name; fn_params := params |}];
         classes := classes i; assignments := assignments i;
         loops := loops i; conditionals := conditionals i;
         returns := returns i; calls := calls i; imports := imports i |}
  | ast.NStmt (ast.ClassDef name _ _ _ _) =>
      {| functions := functions i; classes := classes i ++ [name];
         assignments := assignments i; loops := loops i;
         conditionals := conditionals i; returns := returns i;
         calls := calls i; imports := imports i |}
  | ast.NStmt (ast.Assign _ _) | ast.NStmt (ast.AnnAssign _ _ _ _)
  | ast.NStmt (ast.AugAssign _ _ _) =>
      {| functions := functions i; classes := classes i;
         assignments := assignments i + 1; loops := loops i;
         conditionals := conditionals i; returns := returns i;
         calls := calls i; imports := imports i |}
  | ast.NStmt (ast.For _ _ _ _) | ast.NStmt (ast.While _ _ _)
  | ast.NStmt (ast.AsyncFor _ _ _ _) =>
      {| functions := functions i; classes := classes i;
         assignments := assignments i; loops := loops i + 1;
         conditionals := conditionals i; returns := returns i;
         calls := calls i; imports := imports i |}
  | ast.NStmt (ast.If _ _ _) =>
      {| functions := functions i; classes := classes i;
         assignments := assignments i; loops := loops i;
         conditionals := conditionals i + 1; returns := returns i;
         calls := calls i; imports := imports i |}
  | ast.NStmt (ast.Return _) =>
      {| functions := functions i; classes := classes i;
         assignments := assignments i; loops := loops i;
         conditionals := conditionals i; returns := returns i + 1;
         calls := calls i; imports := imports i |}
  | ast.NStmt (ast.Import _) | ast.NStmt (ast.ImportFrom _ _ _) =>
      {| functions := functions i; classes := classes i;
         assignments := assignments i; loops := loops i;
         conditionals := conditionals i; returns := returns i;
         calls := calls i; imports := imports i + 1 |}
  | ast.NExpr (ast.Call func _ _) =>
      (* record function name when obvious *)
      match func with
      | ast.Name id _ => add_call id i
      | ast.Attribute _ attr _ => add_call attr i
      | _ => i
      end
  | _ => i
  end.

(** [sorted(s)] on a set of strings: ascending in the order of [str], which
    on UTF-8 text is the byte-wise lexicographic order. *)
Definition sorted (s : gset string) : list string :=
  merge_sort String.le (elements s).

Definition analyze_code_structure (tree : ast.AST) : info (list string) :=
  let i := fold_left analyze_node (ast.walk tree) info_init in
  {| functions := functions i; classes := classes i;
     assignments := assignments i; loops := loops i;
     conditionals := conditionals i; returns := returns i;
     calls := sorted (calls i); imports := imports i |}.

(** The number of nodes of a tree whose class is one of [names], and what
    a node contributes to the [functions], [classes] and [calls] entries. *)
Definition counts (names : list string) (l : list ast.AST) : nat :=
  length (filter (fun n => ast.class_name n ∈ names) l).

Definition count_class (names : list string) (tree : ast.AST) : nat :=
  counts names (ast.walk tree).

Definition function_entry (node : ast.AST) : option function_info :=
  match node with
  | ast.NStmt (ast.FunctionDef name args _ _ _) =>
      Some {| fn_name := name; fn_params := positional_params args |}
  | _ => None
  end.

Definition class_entry (node : ast.AST) : option string :=
  match node with
  | ast.NStmt (ast.ClassDef name _ _ _ _) => Some name
  | _ => None
  end.

Definition callee_name (node : ast.AST) : option string :=
  match node with
  | ast.NExpr (ast.Call (ast.Name id _) _ _) => Some id
  | ast.NExpr (ast.Call (ast.Attribute _ attr _) _ _) => Some attr
  | _ => None
  end.

Definition called (node : ast.AST) : gset string :=
  match callee_name node with Some name => {[ name ]} | None => ∅ end.

(** ** [offline_explain] (lines 116-147) *)

(** [sep.join(parts)] *)
Fixpoint join (sep : string) (parts : list string) : string :=
  match parts with
  | [] => EmptyString
  | [part] => part
  | part :: rest => part +:+ sep +:+ join sep rest
  end.

(** How an f-string renders [e.lineno]. *)
Definition lineno_text (lineno : option Z) : string :=
  match lineno with Some n => pretty n | None => "None" end.

Definition syntax_error_text (lineno : option Z) (msg : string) : string :=
  "Syntax error on line " +:+ lineno_text lineno +:+ ": " +:+ msg.

(** The list [lines] at line 147, before it is joined. *)
Definition offline_lines (i : info (list string)) : list string :=
  ["**What I see (offline analysis):**"]
  ++ (if functions i is [] then []
      else ["- Functions defined: "
              +:+ join ", "
                    (map (fun f => fn_name f +:+ "("
                                     +:+ join ", " (fn_params f) +:+ ")")
                       (functions i))])
  ++ (if classes i is [] then []
      else ["- Classes defined: " +:+ join ", " (classes i)])
  ++ ["- Assignments: " +:+ pretty (assignments i)
        +:+ "  •  Loops: " +:+ pretty (loops i)
        +:+ "  •  If/Elif/Else blocks: " +:+ pretty (conditionals i)
        +:+ "  •  Returns: " +:+ pretty (returns i)]
  ++ (if calls i is [] then []
      else ["- Calls detected: " +:+ join ", " (calls i)])
  ++ (if imports i is 0 then []
      else ["- Imports present: " +:+ pretty (imports i)
              +:+ " (won't run in sandbox)"])
  ++ ["- Complexity (rough heuristic): "
        +:+ (if decide (2 <= loops i)
             then "O(n·m) or O(n²) depending on nesting"
             else "O(1) to O(n) typical")]
  ++ [String "010" "**Tips:**";
      "- Add docstrings to functions to clarify intent.";
      "- Prefer list comprehensions or generator expressions where it makes code clearer.";
      "- Keep I/O separate from pure logic to simplify testing."].

(** The line of the report that announces imports. *)
Definition imports_warning (k : nat) : string :=
  "- Imports present: " +:+ pretty k +:+ " (won't run in sandbox)".

Section Explain.

Variable parse : string -> exn + ast.mod_.

(** Only [SyntaxError] is caught (line 120). *)
Definition offline_explain (code : string) : exn + string :=
  match parse code with
  | inl (SyntaxError lineno msg) => inr (syntax_error_text lineno msg)
  | inl e => inl e
  | inr tree =>
      let i := analyze_code_structure (ast.NMod tree) in
      inr (join (String "010" EmptyString) (offline_lines i))
  end.

End Explain.

(** ** [llm_explain] (lines 151-185)

    [os.getenv] and the body of the [try] (import of the SDK, construction
    of the client, the request, the read of the answer) are the
    environment's.  The request is given the two prompts; it answers the
    content of the first choice, or the text of the exception it raised. *)

Definition llm_system : string :=
  "You are a precise yet friendly Python tutor. "
  +:+ "Explain code step-by-step, annotate lines, highlight pitfalls, and suggest small refactors. "
  +:+ "Keep it concise and actionable.".

Definition llm_user (code : string) : string :=
  let nl := String "010" EmptyString in
  "Explain this Python code for a beginner:" +:+ nl +:+ nl
  +:+ code +:+ nl +:+ nl
  +:+ "Format:" +:+ nl
  +:+ "1) Summary (2–3 sentences)" +:+ nl
  +:+ "2) Step-by-step walkthrough (bullets)" +:+ nl
  +:+ "3) Key concepts learned" +:+ nl
  +:+ "4) Potential bugs / edge cases" +:+ nl
  +:+ "5) Tiny refactor suggestions".

Section LLM.

Variable getenv : string -> option string.
Variable request : string -> string -> string -> string + option string.

Definition llm_explain (code : string) : option string :=
  match getenv "OPENAI_API_KEY" with
  | None | Some EmptyString => None
  | Some api_key =>
      match request api_key llm_system (llm_user code) with
      | inr content => content
      | inl e => Some ("(LLM explanation unavailable: " +:+ e +:+ ")")
      end
  end.

End LLM.

(** ** The two buttons (lines 207-229)

    What the script hands to Streamlit. *)
Inductive widget : Type :=
  | st_markdown (body : string)
  | st_info (body : string)
  | st_code (body : string) (language : string)
  | st_error (body : string)
  | st_exception (e : exn).

Section Buttons.

Variable parse : string -> exn + ast.mod_.
Variable code_object : Type.
Variable compile : ast.mod_ -> exn + code_object.
Variable exec : code_object -> frame -> M frame.
Variable getenv : string -> option string.
Variable request : string -> string -> string -> string + option string.

(** [if explain:]; an exception of [offline_explain] is not caught and
    ends the script run. *)
Definition on_explain (use_llm : bool) (code : string) : exn + widget :=
  let offline :=
    match offline_explain parse code with
    | inl e => inl e
    | inr text => inr (st_markdown text)
    end in
  if use_llm then
    match llm_explain getenv request code with
    | None | Some EmptyString => offline
    | Some out => inr (st_markdown out)
    end
  else offline.

(** [if run:] *)
Definition on_run (code : string) : process -> widget * process :=
  fun σ =>
    match sandbox_run parse compile exec code σ with
    | (Returned output, σ') =>
        (if decide (strip output = EmptyString)
         then st_info "Program ran with no output."
         else st_code output "text", σ')
    | (Raised (SafetyError se), σ') =>
        (st_error ("Safety check failed: " +:+ se), σ')
    | (Raised (SyntaxError lineno msg), σ') =>
        (st_error (syntax_error_text lineno msg), σ')
    | (Raised e, σ') => (st_exception e, σ')
    end.

End Buttons.

Arguments on_run parse {code_object} compile exec code.

(** Text of ASCII characters only.  On such text [str.strip()] removes
    exactly the characters of [isspace]; beyond ASCII, Python also counts
    characters such as the no-break space as whitespace, which [strip]
    above does not follow. *)
Definition ascii_text (s : string) : Prop :=
  Forall (fun c => nat_of_ascii c < 128) (list_ascii_of_string s).

(** [print()], as CPython 3.11 parses it. *)
Definition print_nothing : ast.mod_ :=
  ast.Module [ast.Expr (ast.Call (ast.Name "print" ast.Load) [] [])].

(** A frame whose stream holds [out], its two dicts unchanged; and the
    property of a tree of having no node of a given class. *)
Definition with_stdout (fr : frame) (out : string) : frame :=
  {| f_globals := f_globals fr; f_locals := f_locals fr; f_stdout := out |}.

Definition free_of (class : string) (tree : ast.AST) : Prop :=
  forall n, ast.subnode tree n -> ast.class_name n <> class.

(** No assignment through a subscript, as in [d[k] = v]. *)
Definition no_subscript_store (tree : ast.AST) : Prop :=
  forall obj key,
    ~ ast.subnode tree (ast.NExpr (ast.Subscript obj key ast.Store)).

(** What a step leaves alone: both deny tables always; the whole process
    state unless it stores through a subscript; the stream unless it
    calls. *)
Definition step_ok (tree : ast.AST) (s s' : frame * process) : Prop :=
  DANGEROUS_NAMES (snd s') = DANGEROUS_NAMES (snd s)
  /\ DANGEROUS_ATTR_PARENTS (snd s') = DANGEROUS_ATTR_PARENTS (snd s)
  /\ (no_subscript_store tree -> snd s' = snd s)
  /\ (free_of "Call" tree -> f_stdout (fst s') = f_stdout (fst s)).

(** The programs that the reference [compile] and [exec] cover in full:
    every statement is an expression statement, an assignment or [pass];
    every expression is a constant [None], [True], [False], an [int] or a
    [str], a name that is read, a sum, difference or product, a subscript
    that is read, or a call without keyword arguments; every assignment
    target is a name or a subscript.  Whether such a program stays inside
    the fragment while it runs depends on the values it meets ([1 + None],
    or a call of [len], leave it): that is the outcome [NotModelled]. *)
Fixpoint covered_expr (e : ast.expr) : bool :=
  match e with
  | ast.Constant c _ =>
      match c with
      | ast.CNone | ast.CBool _ | ast.CInt _ | ast.CStr _ => true
      | _ => false
      end
  | ast.Name id ast.Load => bool_decide (id <> "__debug__")
  | ast.BinOp lhs op rhs =>
      match op with
      | ast.Add | ast.Sub | ast.Mult => covered_expr lhs && covered_expr rhs
      | _ => false
      end
  | ast.Subscript obj key ast.Load => covered_expr obj && covered_expr key
  | ast.Call func args [] => covered_expr func && forallb covered_expr args
  | _ => false
  end.

Definition covered_target (target : ast.expr) : bool :=
  match target with
  | ast.Name id ast.Store => bool_decide (id <> "__debug__")
  | ast.Subscript obj key ast.Store => covered_expr obj && covered_expr key
  | _ => false
  end.

Definition covered_stmt (s : ast.stmt) : bool :=
  match s with
  | ast.Expr e => covered_expr e
  | ast.Assign targets e =>
      negb (bool_decide (targets = []))
      && forallb covered_target targets && covered_expr e
  | ast.Pass => true
  | _ => false
  end.

Definition covered (tree : ast.mod_) : bool :=
  match tree with ast.Module body => forallb covered_stmt body end.

(** * Properties *)

(** ** [ast.walk] enumerates the nodes of the tree *)

Module ast_facts.

Import ast.

Section Sizes.

Context {A : Type} (f : A -> nat).

Lemma lsize_nil : lsize f [] = 0.
Proof. reflexivity. Qed.

Lemma lsize_cons x l : lsize f (x :: l) = f x + lsize f l.
Proof. reflexivity. Qed.

Lemma lsize_app l1 l2 : lsize f (l1 ++ l2) = lsize f l1 + lsize f l2.
Proof.
  induction l1 as [|x l1 IH]; [reflexivity|].
  rewrite <- app_comm_cons, !lsize_cons, IH. lia.
Qed.

End Sizes.

Lemma lsize_map {A : Type} (inj : A -> AST) (sz : A -> nat) (l : list A) :
  (forall a, node_size (inj a) = sz a) ->
  lsize node_size (map inj l) = lsize sz l.
Proof.
  intros Hsz. induction l as [|a l IH]; [reflexivity|].
  cbn [map]. rewrite !lsize_cons, Hsz, IH. reflexivity.
Qed.

Lemma lsize_const {A : Type} (inj : A -> AST) (l : list A) :
  (forall a, node_size (inj a) = 1) ->
  lsize node_size (map inj l) = length l.
Proof.
  intros Hsz. induction l as [|a l IH]; [reflexivity|].
  cbn [map length]. rewrite lsize_cons, Hsz, IH. reflexivity.
Qed.

Lemma lsize_opt {A : Type} (inj : A -> AST) (sz : A -> nat) (o : option A) :
  (forall a, node_size (inj a) = sz a) ->
  lsize node_size (opt inj o) = osize sz o.
Proof.
  intros Hsz. destruct o as [a|]; [|reflexivity].
  cbn [opt osize]. rewrite lsize_cons, lsize_nil, Hsz. lia.
Qed.

Lemma lsize_opts {A : Type} (inj : A -> AST) (sz : A -> nat)
    (l : list (option A)) :
  (forall a, node_size (inj a) = sz a) ->
  lsize node_size (opts inj l) = lsize (osize sz) l.
Proof.
  intros Hsz. induction l as [|o l IH]; [reflexivity|].
  unfold opts in *. cbn [flat_map].
  rewrite lsize_app, lsize_cons, IH, (lsize_opt inj sz); auto.
Qed.

Ltac count_children :=
  repeat (rewrite lsize_cons || rewrite lsize_app || rewrite lsize_nil);
  rewrite ?(lsize_map NExpr expr_size), ?(lsize_map NStmt stmt_size),
    ?(lsize_map NKeyword keyword_size),
    ?(lsize_map NComprehension comprehension_size),
    ?(lsize_map NArg arg_size), ?(lsize_map NWithitem withitem_size),
    ?(lsize_map NExceptHandler excepthandler_size),
    ?(lsize_map NMatchCase match_case_size),
    ?(lsize_map NPattern pattern_size),
    ?(lsize_const NCmpop), ?(lsize_const NAlias),
    ?(lsize_opt NExpr expr_size), ?(lsize_opt NArg arg_size),
    ?(lsize_opt NPattern pattern_size), ?(lsize_opts NExpr expr_size)
    by reflexivity;
  cbn [node_size]; try lia; try reflexivity.

(** A node counts for one more than its children together. *)
Lemma node_size_children (n : AST) :
  node_size n = S (lsize node_size (iter_child_nodes n)).
Proof.
  destruct n as [[body]|s|e| | | | | |[]|[]|[]|[]|[]| |[]|[]|p];
    cbn [iter_child_nodes]; try reflexivity.
  - cbn [node_size]. count_children.
  - destruct s; cbn [stmt_children node_size stmt_size]; count_children.
  - destruct e; cbn [expr_children node_size expr_size]; count_children.
  - cbn [node_size comprehension_size]. count_children.
  - cbn [node_size excepthandler_size]. count_children.
  - cbn [node_size arguments_size]. count_children.
  - cbn [node_size arg_size]. count_children.
  - cbn [node_size keyword_size]. count_children.
  - cbn [node_size withitem_size]. count_children.
  - cbn [node_size match_case_size]. count_children.
  - destruct p; cbn [pattern_children node_size pattern_size]; count_children.
Qed.

Lemma subnode_child root n c : subnode root n -> child n c -> subnode root c.
Proof.
  induction 1 as [n|n m d Hnm _ IH]; intros Hc.
  - eapply subnode_step; [exact Hc | apply subnode_refl].
  - eapply subnode_step; [exact Hnm | auto].
Qed.

Lemma subnode_trans a b c : subnode a b -> subnode b c -> subnode a c.
Proof.
  induction 1 as [n|n m d Hnm _ IH]; intros Hbc; [exact Hbc|].
  eapply subnode_step; [exact Hnm | auto].
Qed.

Lemma lsize_step n todo :
  lsize node_size (n :: todo)
  = S (lsize node_size (todo ++ iter_child_nodes n)).
Proof. rewrite lsize_cons, lsize_app, (node_size_children n). lia. Qed.

(** The loop of [walk] stops on an empty work list, not on the fuel: with
    the node count or with any larger fuel the output is the same. *)
Lemma walk_queue_fuel fuel todo :
  lsize node_size todo <= fuel ->
  walk_queue fuel todo = walk_queue (lsize node_size todo) todo.
Proof.
  revert todo. induction fuel as [|fuel IH]; intros todo Hle.
  - replace (lsize node_size todo) with 0 by lia. reflexivity.
  - destruct todo as [|n todo]; [reflexivity|].
    rewrite lsize_step in Hle |- *. cbn [walk_queue].
    f_equal. apply IH. lia.
Qed.

(** Every node waiting in the work list is visited. *)
Lemma walk_queue_todo fuel todo n :
  lsize node_size todo <= fuel -> n ∈ todo -> n ∈ walk_queue fuel todo.
Proof.
  revert todo. induction fuel as [|fuel IH]; intros todo Hle Hn.
  - destruct todo as [|m todo]; [inversion Hn|].
    rewrite lsize_step in Hle. lia.
  - destruct todo as [|m todo]; [exact Hn|].
    rewrite lsize_step in Hle. cbn [walk_queue].
    apply elem_of_cons in Hn as [->|Hn]; [apply list_elem_of_here|].
    apply list_elem_of_further, IH; [lia|].
    apply elem_of_app. left. exact Hn.
Qed.

(** The children of a visited node are visited. *)
Lemma walk_queue_child fuel todo n c :
  lsize node_size todo <= fuel ->
  n ∈ walk_queue fuel todo -> child n c -> c ∈ walk_queue fuel todo.
Proof.
  revert todo. induction fuel as [|fuel IH]; intros todo Hle Hn Hc.
  - cbn in Hn. inversion Hn.
  - destruct todo as [|m todo]; [inversion Hn|].
    rewrite lsize_step in Hle. cbn [walk_queue] in Hn |- *.
    apply list_elem_of_further.
    apply elem_of_cons in Hn as [->|Hn].
    + apply walk_queue_todo; [lia|]. apply elem_of_app. right. exact Hc.
    + apply (IH (todo ++ iter_child_nodes m)); [lia | exact Hn | exact Hc].
Qed.

(** What is visited lies below a node of the work list. *)
Lemma walk_queue_below fuel todo d :
  d ∈ walk_queue fuel todo -> exists n, n ∈ todo /\ subnode n d.
Proof.
  revert todo. induction fuel as [|fuel IH]; intros todo Hd.
  - inversion Hd.
  - destruct todo as [|m todo]; [inversion Hd|].
    cbn [walk_queue] in Hd. apply elem_of_cons in Hd as [->|Hd].
    + exists m. split; [apply list_elem_of_here | apply subnode_refl].
    + destruct (IH _ Hd) as (n & Hn & Hsub).
      apply elem_of_app in Hn as [Hn|Hn].
      * exists n. split; [apply list_elem_of_further, Hn | exact Hsub].
      * exists m. split; [apply list_elem_of_here|].
        eapply subnode_step; [exact Hn | exact Hsub].
Qed.

(** [ast.walk] yields exactly the nodes of the tree. *)
Lemma walk_queue_subnode fuel todo n d :
  lsize node_size todo <= fuel ->
  subnode n d -> n ∈ walk_queue fuel todo -> d ∈ walk_queue fuel todo.
Proof.
  intros Hle. induction 1 as [n|n c d Hc _ IH]; intros Hn; [exact Hn|].
  apply IH. exact (walk_queue_child _ _ _ _ Hle Hn Hc).
Qed.

Lemma walk_complete root d : subnode root d -> d ∈ walk root.
Proof.
  assert (Hfuel : lsize node_size [root] <= node_size root).
  { rewrite lsize_cons, lsize_nil. lia. }
  intros Hsub. apply (walk_queue_subnode _ _ root d Hfuel Hsub).
  apply walk_queue_todo; [exact Hfuel | apply list_elem_of_here].
Qed.

Lemma walk_sound root d : d ∈ walk root -> subnode root d.
Proof.
  intros Hd. destruct (walk_queue_below _ _ _ Hd) as (n & Hn & Hsub).
  apply elem_of_cons in Hn as [->|Hn]; [exact Hsub | inversion Hn].
Qed.

Lemma walk_root root : exists rest, walk root = root :: rest.
Proof.
  unfold walk. rewrite (node_size_children root). cbn [walk_queue]. eauto.
Qed.

End ast_facts.

(** The order of the walk on three of the tabulated trees, as the class
    names of the nodes: the lists CPython prints for
    [[type(n).__name__ for n in ast.walk(ast.parse(src))]]. *)
Example walk_import_then_eval :
  map ast.class_name (ast.walk (ast.NMod cpython.import_then_eval))
  = ["Module"; "Import"; "Expr"; "alias"; "Call"; "Name"; "Constant"; "Load"].
Proof. reflexivity. Qed.

Example walk_eval_of_os_system :
  map ast.class_name (ast.walk (ast.NMod cpython.eval_of_os_system))
  = ["Module"; "Expr"; "Call"; "Name"; "Call"; "Load"; "Attribute";
     "Constant"; "Name"; "Load"; "Load"].
Proof. reflexivity. Qed.

Example walk_with_open :
  map ast.class_name (ast.walk (ast.NMod cpython.with_open))
  = ["Module"; "With"; "withitem"; "Pass"; "Call"; "Name"; "Name";
     "Constant"; "Store"; "Load"].
Proof. reflexivity. Qed.

(** ** Loops and the checks of one node *)

Section Loop.

Context {S A : Type} (body : A -> ST S unit).

Lemma for_each_cons x xs s :
  for_each (x :: xs) body s
  = match body x s with
    | (Returned _, s') => for_each xs body s'
    | (Raised e, s') => (Raised e, s')
    end.
Proof. reflexivity. Qed.

(** A loop whose every iteration passes and leaves the state alone. *)
Lemma for_each_pass xs s :
  (forall x, x ∈ xs -> body x s = (Returned tt, s)) ->
  for_each xs body s = (Returned tt, s).
Proof.
  induction xs as [|x xs IH]; intros Hall; [reflexivity|].
  rewrite for_each_cons, (Hall x) by apply list_elem_of_here.
  apply IH. intros y Hy. apply Hall, list_elem_of_further, Hy.
Qed.

(** The loop ends with the first iteration that raises. *)
Lemma for_each_raise pre x post e s s' :
  (forall y, y ∈ pre -> body y s = (Returned tt, s)) ->
  body x s = (Raised e, s') ->
  for_each (pre ++ x :: post) body s = (Raised e, s').
Proof.
  induction pre as [|y pre IH]; intros Hpre Hx.
  - cbn [app]. rewrite for_each_cons, Hx. reflexivity.
  - rewrite <- app_comm_cons, for_each_cons.
    rewrite (Hpre y) by apply list_elem_of_here.
    apply IH; [|exact Hx].
    intros z Hz. apply Hpre, list_elem_of_further, Hz.
Qed.

(** If each iteration either passes or raises, leaving the state alone,
    then so does the loop, and what it raises was raised by an element. *)
Lemma for_each_first xs s :
  (forall x, x ∈ xs ->
     body x s = (Returned tt, s) \/ exists e, body x s = (Raised e, s)) ->
  (for_each xs body s = (Returned tt, s)
   /\ forall x, x ∈ xs -> body x s = (Returned tt, s))
  \/ exists pre x post e,
       xs = pre ++ x :: post
       /\ (forall y, y ∈ pre -> body y s = (Returned tt, s))
       /\ body x s = (Raised e, s)
       /\ for_each xs body s = (Raised e, s).
Proof.
  induction xs as [|x xs IH]; intros Hall.
  - left. split; [reflexivity|]. intros x Hx. inversion Hx.
  - destruct (Hall x (list_elem_of_here _ _)) as [Hx|[e Hx]].
    + destruct IH as [[Hok Hpass]|(pre & y & post & e & -> & Hpre & Hy & Hr)].
      { intros y Hy. apply Hall, list_elem_of_further, Hy. }
      * left. split.
        -- rewrite for_each_cons, Hx. exact Hok.
        -- intros y [->|Hy]%elem_of_cons; auto.
      * right. exists (x :: pre), y, post, e. repeat split; auto.
        -- intros z [->|Hz]%elem_of_cons; auto.
        -- rewrite for_each_cons, Hx. exact Hr.
    + right. exists [], x, xs, e. repeat split; auto.
      * intros y Hy. inversion Hy.
      * rewrite for_each_cons, Hx. reflexivity.
Qed.

End Loop.

Ltac run_checks :=
  unfold static_checks_node, mbind, ST_bind, raise, gets, mret, ST_ret;
  cbn beta iota.

(** One node: the checks pass or raise a [SafetyError]; the state, and with
    it both deny tables, is left as it was. *)
Lemma static_checks_node_outcome node σ :
  static_checks_node node σ = (Returned tt, σ)
  \/ exists msg, static_checks_node node σ = (Raised (SafetyError msg), σ).
Proof.
  run_checks.
  repeat first [ case_decide | case_match ]; simplify_eq; eauto.
Qed.

(** ** [static_checks] on a tree *)

Lemma static_checks_outcome tree σ :
  static_checks tree σ = (Returned tt, σ)
  \/ exists msg, static_checks tree σ = (Raised (SafetyError msg), σ).
Proof.
  unfold static_checks.
  destruct (for_each_first static_checks_node (ast.walk tree) σ)
    as [[Hok _]|(pre & x & post & e & _ & _ & Hx & Hr)].
  - intros x _. destruct (static_checks_node_outcome x σ) as [H|[msg H]];
      eauto.
  - left. exact Hok.
  - right. destruct (static_checks_node_outcome x σ) as [H|[msg H]];
      [congruence|].
    exists msg. rewrite Hr. congruence.
Qed.

(** [static_checks] returns exactly when every node of the tree passes. *)
Lemma static_checks_accepts tree σ :
  (forall n, ast.subnode tree n -> static_checks_node n σ = (Returned tt, σ)) ->
  static_checks tree σ = (Returned tt, σ).
Proof.
  intros Hall. apply for_each_pass.
  intros n Hn. apply Hall, ast_facts.walk_sound, Hn.
Qed.

(** The exception is the one of the first node, in [ast.walk] order, that
    fails a check. *)
Lemma static_checks_first tree σ pre n post e :
  ast.walk tree = pre ++ n :: post ->
  (forall y, y ∈ pre -> static_checks_node y σ = (Returned tt, σ)) ->
  static_checks_node n σ = (Raised e, σ) ->
  static_checks tree σ = (Raised e, σ).
Proof.
  intros Hwalk Hpre Hn. unfold static_checks. rewrite Hwalk.
  apply for_each_raise; assumption.
Qed.

(** A tree with a node that fails a check is rejected. *)
Lemma static_checks_rejects tree σ n e :
  ast.subnode tree n ->
  static_checks_node n σ = (Raised e, σ) ->
  exists msg, static_checks tree σ = (Raised (SafetyError msg), σ).
Proof.
  intros Hsub Hn.
  destruct (static_checks_outcome tree σ) as [Hok|Hrej]; [|exact Hrej].
  exfalso. unfold static_checks in Hok.
  destruct (for_each_first static_checks_node (ast.walk tree) σ)
    as [[_ Hpass]|(pre & x & post & e' & _ & _ & _ & Hr)].
  - intros x _. destruct (static_checks_node_outcome x σ) as [H|[msg H]];
      eauto.
  - rewrite (Hpass n) in Hn by apply ast_facts.walk_complete, Hsub.
    discriminate.
  - congruence.
Qed.

(** What [static_checks] raises was raised by a node of the walk before
    which every node passed. *)
Lemma static_checks_raised_by tree σ msg :
  static_checks tree σ = (Raised (SafetyError msg), σ) ->
  exists pre first post,
    ast.walk tree = pre ++ first :: post
    /\ (forall n, n ∈ pre -> static_checks_node n σ = (Returned tt, σ))
    /\ static_checks_node first σ = (Raised (SafetyError msg), σ).
Proof.
  intros Hraised. unfold static_checks in Hraised.
  destruct (for_each_first static_checks_node (ast.walk tree) σ)
    as [[Hok _]|(pre & x & post & e & Hwalk & Hpre & Hx & Hr)].
  - intros x _. destruct (static_checks_node_outcome x σ) as [H|[m H]];
      eauto.
  - congruence.
  - exists pre, x, post. repeat split; [exact Hwalk | exact Hpre |].
    rewrite Hx. congruence.
Qed.

(** ** [sandbox_run]: the three ways out before execution *)

Section SandboxFacts.

Context (parse : string -> exn + ast.mod_) {code_object : Type}
  (compile : ast.mod_ -> exn + code_object)
  (exec : code_object -> frame -> M frame).

Lemma sandbox_run_parse_error code e σ :
  parse code = inl e ->
  sandbox_run parse compile exec code σ = (Raised e, σ).
Proof.
  intros Hparse. unfold sandbox_run, mbind, ST_bind. rewrite Hparse.
  reflexivity.
Qed.

Lemma sandbox_run_rejected code tree e σ σ' :
  parse code = inr tree ->
  static_checks (ast.NMod tree) σ = (Raised e, σ') ->
  sandbox_run parse compile exec code σ = (Raised e, σ').
Proof.
  intros Hparse Hchecks. unfold sandbox_run, mbind, ST_bind.
  rewrite Hparse. cbn [lift mret ST_ret]. rewrite Hchecks. reflexivity.
Qed.

Lemma sandbox_run_accepted code tree σ :
  parse code = inr tree ->
  static_checks (ast.NMod tree) σ = (Returned tt, σ) ->
  sandbox_run parse compile exec code σ
  = match compile tree with
    | inl e => (Raised e, σ)
    | inr bytecode =>
        match exec bytecode
                {| f_globals := {[ "__builtins__" := VAllowedBuiltins ]};
                   f_locals := ∅; f_stdout := EmptyString |} σ with
        | (Returned fr, σ') => (Returned (f_stdout fr), σ')
        | (Raised e, σ') => (Raised e, σ')
        end
    end.
Proof.
  intros Hparse Hchecks. unfold sandbox_run, mbind, ST_bind.
  rewrite Hparse. cbn [lift mret ST_ret]. rewrite Hchecks.
  destruct (compile tree) as [e|bytecode]; [reflexivity|].
  cbn [lift mret ST_ret].
  destruct (exec bytecode _ σ) as [[fr|e] σ']; reflexivity.
Qed.

End SandboxFacts.

(** ** Messages and the identifiers they name *)

Lemma append_assoc (a b c : string) : (a +:+ b) +:+ c = a +:+ b +:+ c.
Proof.
  induction a as [|x a IH]; [reflexivity|].
  change (String x ((a +:+ b) +:+ c) = String x (a +:+ b +:+ c)).
  f_equal. exact IH.
Qed.

Lemma is_prefix_append id after : is_prefix id (id +:+ after) = true.
Proof.
  induction id as [|c id IH]; [reflexivity|].
  change (String c id +:+ after) with (String c (id +:+ after)).
  cbn [is_prefix]. rewrite decide_True by reflexivity. exact IH.
Qed.

Lemma occurs_names msg id : names msg id -> occurs id msg = true.
Proof.
  intros (before & after & ->).
  induction before as [|c before IH].
  - change (EmptyString +:+ id +:+ after) with (id +:+ after).
    destruct (id +:+ after) eqn:E; cbn [occurs];
      rewrite <- E, is_prefix_append; reflexivity.
  - change (String c before +:+ id +:+ after)
      with (String c (before +:+ id +:+ after)).
    cbn [occurs]. rewrite IH. apply orb_true_r.
Qed.

Lemma not_names msg id : occurs id msg = false -> ~ names msg id.
Proof. intros Hocc Hnames%occurs_names. congruence. Qed.

(** ** The claims *)

(** Membership of a given node in a given tree, by running [ast.walk]. *)
Ltac find_node :=
  apply ast_facts.walk_sound; vm_compute;
  repeat first [ apply list_elem_of_here | apply list_elem_of_further ].

Ltac in_table := compute_done.

Lemma import_fails_check names σ :
  static_checks_node (ast.NStmt (ast.Import names)) σ
  = (Raised (SafetyError "Imports are not allowed in sandbox mode."), σ).
Proof. reflexivity. Qed.

Lemma import_from_fails_check module_ names level σ :
  static_checks_node (ast.NStmt (ast.ImportFrom module_ names level)) σ
  = (Raised (SafetyError "Imports are not allowed in sandbox mode."), σ).
Proof. reflexivity. Qed.

Lemma with_fails_check items body σ :
  static_checks_node (ast.NStmt (ast.With items body)) σ
  = (Raised
       (SafetyError "with/async with blocks are not allowed in sandbox mode."),
     σ).
Proof. reflexivity. Qed.

Lemma async_with_fails_check items body σ :
  static_checks_node (ast.NStmt (ast.AsyncWith items body)) σ
  = (Raised
       (SafetyError "with/async with blocks are not allowed in sandbox mode."),
     σ).
Proof. reflexivity. Qed.

(** C1.  A source whose tree holds an import statement, in the plain or in
    the [from] form, makes [sandbox_run] raise a [SafetyError] out of the
    vetting step: whatever [compile] and [exec] would do, neither is
    consulted, no output string is returned and the process state is
    untouched. *)
Theorem import_rejected_before_execution
    (parse : string -> exn + ast.mod_) (code : string) (tree : ast.mod_)
    (σ : process) names module_ level :
  parse code = inr tree ->
  ast.subnode (ast.NMod tree) (ast.NStmt (ast.Import names))
  \/ ast.subnode (ast.NMod tree)
       (ast.NStmt (ast.ImportFrom module_ names level)) ->
  exists msg,
    forall (code_object : Type) (compile : ast.mod_ -> exn + code_object)
           (exec : code_object -> frame -> M frame),
      sandbox_run parse compile exec code σ = (Raised (SafetyError msg), σ).
Proof.
  intros Hparse Himport.
  assert (exists msg,
    static_checks (ast.NMod tree) σ = (Raised (SafetyError msg), σ))
    as [msg Hmsg].
  { destruct Himport as [Hsub|Hsub].
    - exact (static_checks_rejects _ _ _ _ Hsub (import_fails_check _ _)).
    - exact (static_checks_rejects _ _ _ _ Hsub
               (import_from_fails_check _ _ _ _)). }
  exists msg. intros code_object compile exec.
  exact (sandbox_run_rejected parse compile exec _ _ _ _ _ Hparse Hmsg).
Qed.

Lemma import_rejected_before_execution_witness :
  cpython.parse ("import os" +:+ cpython.nl +:+ "eval('1')")
    = inr cpython.import_then_eval
  /\ ast.subnode (ast.NMod cpython.import_then_eval)
       (ast.NStmt (ast.Import [ast.Alias "os" None]))
  /\ exists msg,
       forall (code_object : Type) (compile : ast.mod_ -> exn + code_object)
              (exec : code_object -> frame -> M frame),
         sandbox_run cpython.parse compile exec
           ("import os" +:+ cpython.nl +:+ "eval('1')") module_init
         = (Raised (SafetyError msg), module_init).
Proof.
  split; [reflexivity|]. split; [find_node|].
  apply (import_rejected_before_execution cpython.parse _
           cpython.import_then_eval module_init [ast.Alias "os" None]
           None None).
  - reflexivity.
  - left. find_node.
Defined.

(** C7.  A tree that holds a [with] or an [async with] block is rejected
    with a [SafetyError], whatever its items bind and whatever its body. *)
Theorem with_block_rejected (tree : ast.AST) (σ : process) items body :
  ast.subnode tree (ast.NStmt (ast.With items body))
  \/ ast.subnode tree (ast.NStmt (ast.AsyncWith items body)) ->
  exists msg, static_checks tree σ = (Raised (SafetyError msg), σ).
Proof.
  intros [Hsub|Hsub].
  - exact (static_checks_rejects _ _ _ _ Hsub (with_fails_check _ _ _)).
  - exact (static_checks_rejects _ _ _ _ Hsub (async_with_fails_check _ _ _)).
Qed.

Lemma with_block_rejected_witness :
  ast.subnode (ast.NMod cpython.with_lock)
    (ast.NStmt
       (ast.With [ast.Withitem (ast.Name "lock" ast.Load) None] [ast.Pass]))
  /\ exists msg,
       static_checks (ast.NMod cpython.with_lock) module_init
       = (Raised (SafetyError msg), module_init).
Proof.
  split; [find_node|].
  apply (with_block_rejected (ast.NMod cpython.with_lock) module_init
           [ast.Withitem (ast.Name "lock" ast.Load) None] [ast.Pass]).
  left. find_node.
Defined.

(** C8.  [static_checks] is a function of the tree and of the two deny
    tables, and writes nothing: a second call on the same tree gives the
    same outcome as the first (the same return, or the same [SafetyError]
    with the same message), and after either call [DANGEROUS_NAMES] and
    [DANGEROUS_ATTR_PARENTS], like the rest of the state, are what they
    were. *)
Theorem static_checks_idempotent (tree : ast.AST) (σ : process) :
  let first := static_checks tree σ in
  let second := static_checks tree (snd first) in
  fst second = fst first
  /\ snd first = σ /\ snd second = σ
  /\ DANGEROUS_NAMES (snd second) = DANGEROUS_NAMES σ
  /\ DANGEROUS_ATTR_PARENTS (snd second) = DANGEROUS_ATTR_PARENTS σ.
Proof.
  cbv zeta.
  destruct (static_checks_outcome tree σ) as [H|[msg H]];
    rewrite H; cbn [fst snd]; rewrite H; cbn [fst snd]; auto.
Qed.

(** C9.  [requests] is in [DANGEROUS_NAMES] and not in
    [DANGEROUS_ATTR_PARENTS]: the tree of [requests.get('http://x')] passes
    [static_checks], while the tree of the direct call
    [requests('http://x')] is rejected. *)
Theorem requests_attribute_call_accepted :
  "requests" ∈ DANGEROUS_NAMES module_init
  /\ ("requests" ∉ DANGEROUS_ATTR_PARENTS module_init)
  /\ static_checks (ast.NMod cpython.requests_get) module_init
     = (Returned tt, module_init)
  /\ static_checks (ast.NMod cpython.requests_call) module_init
     = (Raised
          (SafetyError "Use of 'requests()' is not allowed in sandbox mode."),
        module_init).
Proof.
  split; [in_table|]. split; [in_table|].
  split; vm_compute; reflexivity.
Qed.

Lemma uninspected_passes node σ :
  inspected node = false -> static_checks_node node σ = (Returned tt, σ).
Proof.
  unfold inspected. intros Hnode. run_checks.
  repeat case_match; simplify_eq; reflexivity.
Qed.

Lemma every_node (P : ast.AST -> bool) tree :
  forallb P (ast.walk tree) = true ->
  forall n, ast.subnode tree n -> P n = true.
Proof.
  intros Hall n Hn. rewrite forallb_forall in Hall.
  apply Hall, list_elem_of_In, ast_facts.walk_complete, Hn.
Qed.

(** One node passes its checks exactly when no rule rejects it. *)
Lemma static_checks_node_rejected node σ :
  static_checks_node node σ = (Returned tt, σ) <-> rejected σ node = false.
Proof.
  unfold rejected. run_checks.
  repeat first [ case_decide | case_bool_decide | case_match ];
    simplify_eq; split; intros H; try discriminate H; try reflexivity;
    contradiction.
Qed.

(** C10.  Referring to a denied identifier by its bare name is not
    rejected.  Let [id] be in [DANGEROUS_NAMES]: a [Name] node for it passes
    the checks, in whatever position it stands (assigned from, passed as an
    argument, ...).  And for a tree in which nothing but [id] could be
    objected to (a node fails a check only if it calls [id] or accesses an
    attribute of [id]), [static_checks] accepts exactly when [id] is never
    the callee of a direct call and, should [id] also be in
    [DANGEROUS_ATTR_PARENTS], never the root of an attribute access.  So
    [x = eval], [print(eval)] and [x = eval] followed by [print(x)] are
    accepted. *)
Theorem bare_reference_accepted (tree : ast.AST) (σ : process) (id : string) :
  id ∈ DANGEROUS_NAMES σ ->
  (forall n, ast.subnode tree n -> rejected σ n = true ->
             calls_or_accesses id n) ->
  (forall ctx,
     static_checks_node (ast.NExpr (ast.Name id ctx)) σ = (Returned tt, σ))
  /\ (static_checks tree σ = (Returned tt, σ)
      <-> (forall ctx args kws,
             ~ ast.subnode tree
                 (ast.NExpr (ast.Call (ast.Name id ctx) args kws)))
          /\ (id ∈ DANGEROUS_ATTR_PARENTS σ ->
              forall ctx attr actx,
                ~ ast.subnode tree
                    (ast.NExpr (ast.Attribute (ast.Name id ctx) attr actx)))).
Proof.
  intros Hdenied Honly. split; [intros ctx; apply uninspected_passes;
                                reflexivity|].
  split.
  - intros Hok.
    assert (Hnone : forall n, ast.subnode tree n -> rejected σ n = false).
    { intros n Hn. apply static_checks_node_rejected.
      destruct (static_checks_node_outcome n σ) as [H|[msg H]]; [exact H|].
      destruct (static_checks_rejects _ _ _ _ Hn H) as [msg' Hrej].
      congruence. }
    split.
    + intros ctx args kws Hn. apply Hnone in Hn. cbn in Hn.
      apply bool_decide_eq_false in Hn. contradiction.
    + intros Hparent ctx attr actx Hn. apply Hnone in Hn. cbn in Hn.
      apply bool_decide_eq_false in Hn. contradiction.
  - intros [Hcall Hattr]. apply static_checks_accepts. intros n Hn.
    apply static_checks_node_rejected.
    destruct (rejected σ n) eqn:Hrej; [|reflexivity].
    exfalso. pose proof (Honly n Hn Hrej) as Hid.
    unfold calls_or_accesses in Hid.
    repeat case_match; try contradiction; subst; cbn in Hrej;
      apply bool_decide_eq_true in Hrej;
      lazymatch type of Hn with
      | ast.subnode _ (ast.NExpr (ast.Call (ast.Name _ _) _ _)) =>
          (* a direct call of [id] *)
          exact (Hcall _ _ _ Hn)
      | ast.subnode _ (ast.NExpr (ast.Call (ast.Attribute _ _ _) _ _)) =>
          (* a call of an attribute of [id]: the attribute is a child *)
          eapply (Hattr Hrej), ast_facts.subnode_child; [exact Hn|];
          unfold ast.child; cbn; apply list_elem_of_here
      | ast.subnode _ (ast.NExpr (ast.Attribute _ _ _)) =>
          (* an attribute of [id] *)
          exact (Hattr Hrej _ _ _ Hn)
      end.
Qed.

Lemma bare_reference_accepted_witness :
  "eval" ∈ DANGEROUS_NAMES module_init
  /\ (forall n, ast.subnode (ast.NMod eval_by_name) n ->
        rejected module_init n = true -> calls_or_accesses "eval" n)
  /\ ast.subnode (ast.NMod eval_by_name)
       (ast.NExpr (ast.Name "eval" ast.Load))
  /\ static_checks (ast.NMod eval_by_name) module_init
     = (Returned tt, module_init).
Proof.
  assert (Honly : forall n, ast.subnode (ast.NMod eval_by_name) n ->
            rejected module_init n = true -> calls_or_accesses "eval" n).
  { intros n Hn Hrej. exfalso.
    assert (Hpass : negb (rejected module_init n) = true).
    { apply (every_node (fun n => negb (rejected module_init n))
               (ast.NMod eval_by_name)); [vm_compute; reflexivity | exact Hn]. }
    rewrite Hrej in Hpass. discriminate Hpass. }
  split; [in_table|]. split; [exact Honly|]. split; [find_node|].
  apply (proj2 (bare_reference_accepted (ast.NMod eval_by_name) module_init
                  "eval" ltac:(in_table) Honly)).
  split.
  - intros ctx args kws Hn.
    apply (every_node (fun n => negb (rejected module_init n))) in Hn;
      [|vm_compute; reflexivity].
    cbn in Hn. rewrite bool_decide_eq_true_2 in Hn by in_table.
    discriminate Hn.
  - intros Hparent. exfalso. revert Hparent. in_table.
Defined.

Lemma denied_call_fails_check id ctx args kws σ :
  id ∈ DANGEROUS_NAMES σ ->
  static_checks_node (ast.NExpr (ast.Call (ast.Name id ctx) args kws)) σ
  = (Raised (SafetyError
       ("Use of '" +:+ id +:+ "()' is not allowed in sandbox mode.")), σ).
Proof. intros Hid. run_checks. rewrite decide_True by exact Hid. reflexivity. Qed.

(** C2, as the code has it.  A source whose tree holds a direct call of a
    bare name in [DANGEROUS_NAMES] makes [sandbox_run] raise a
    [SafetyError] before [compile] and [exec] are consulted.  The message
    is that of the first node, in [ast.walk] order, that fails a check: it
    is [Use of '<id>()' is not allowed in sandbox mode.], and so names the
    identifier, when every node visited before the call passes. *)
Theorem denied_call_rejected
    (parse : string -> exn + ast.mod_) (code : string) (tree : ast.mod_)
    (σ : process) id ctx args kws :
  parse code = inr tree ->
  ast.subnode (ast.NMod tree)
    (ast.NExpr (ast.Call (ast.Name id ctx) args kws)) ->
  id ∈ DANGEROUS_NAMES σ ->
  exists msg,
    (forall (code_object : Type) (compile : ast.mod_ -> exn + code_object)
            (exec : code_object -> frame -> M frame),
       sandbox_run parse compile exec code σ = (Raised (SafetyError msg), σ))
    /\ (exists pre first post,
          ast.walk (ast.NMod tree) = pre ++ first :: post
          /\ (forall n, n ∈ pre -> static_checks_node n σ = (Returned tt, σ))
          /\ static_checks_node first σ = (Raised (SafetyError msg), σ))
    /\ (forall pre post,
          ast.walk (ast.NMod tree)
            = pre ++ ast.NExpr (ast.Call (ast.Name id ctx) args kws) :: post ->
          (forall n, n ∈ pre -> static_checks_node n σ = (Returned tt, σ)) ->
          msg = "Use of '" +:+ id +:+ "()' is not allowed in sandbox mode."
          /\ names msg id).
Proof.
  intros Hparse Hsub Hid.
  pose proof (denied_call_fails_check id ctx args kws σ Hid) as Hnode.
  destruct (static_checks_rejects _ _ _ _ Hsub Hnode) as [msg Hmsg].
  exists msg. split; [|split].
  - intros code_object compile exec.
    exact (sandbox_run_rejected parse compile exec _ _ _ _ _ Hparse Hmsg).
  - exact (static_checks_raised_by _ _ _ Hmsg).
  - intros pre post Hwalk Hpre.
    rewrite (static_checks_first _ _ _ _ _ _ Hwalk Hpre Hnode) in Hmsg.
    injection Hmsg as <-.
    split; [reflexivity|]. eexists _, _. reflexivity.
Qed.

Lemma denied_call_rejected_witness :
  cpython.parse "requests('http://x')" = inr cpython.requests_call
  /\ "requests" ∈ DANGEROUS_NAMES module_init
  /\ exists msg,
       (forall (code_object : Type) (compile : ast.mod_ -> exn + code_object)
               (exec : code_object -> frame -> M frame),
          sandbox_run cpython.parse compile exec "requests('http://x')"
            module_init
          = (Raised (SafetyError msg), module_init))
       /\ (exists pre first post,
             ast.walk (ast.NMod cpython.requests_call) = pre ++ first :: post
             /\ (forall n, n ∈ pre ->
                   static_checks_node n module_init
                   = (Returned tt, module_init))
             /\ static_checks_node first module_init
                = (Raised (SafetyError msg), module_init))
       /\ (forall pre post,
             ast.walk (ast.NMod cpython.requests_call)
               = pre ++ ast.NExpr (ast.Call (ast.Name "requests" ast.Load)
                                     [cpython.text "http://x"] []) :: post ->
             (forall n, n ∈ pre ->
                static_checks_node n module_init = (Returned tt, module_init)) ->
             msg = "Use of '" +:+ "requests"
                     +:+ "()' is not allowed in sandbox mode."
             /\ names msg "requests").
Proof.
  split; [reflexivity|]. split; [in_table|].
  apply (denied_call_rejected cpython.parse "requests('http://x')"
           cpython.requests_call module_init "requests" ast.Load
           [cpython.text "http://x"] []);
    [reflexivity | find_node | in_table].
Defined.

(** C2, as stated, fails on [import os] followed by [eval('1')]: the tree
    holds a direct call of [eval], which is in [DANGEROUS_NAMES], and
    [sandbox_run] raises [Imports are not allowed in sandbox mode.], the
    message of the import statement that [ast.walk] reaches first. *)
Lemma denied_call_message_counterexample :
  let code := "import os" +:+ cpython.nl +:+ "eval('1')" in
  cpython.parse code = inr cpython.import_then_eval
  /\ ast.subnode (ast.NMod cpython.import_then_eval)
       (ast.NExpr (ast.Call (ast.Name "eval" ast.Load) [cpython.text "1"] []))
  /\ "eval" ∈ DANGEROUS_NAMES module_init
  /\ sandbox_run_cpython code module_init
     = (Raised (SafetyError "Imports are not allowed in sandbox mode."),
        module_init)
  /\ ~ exists msg σ',
         sandbox_run_cpython code module_init = (Raised (SafetyError msg), σ')
         /\ names msg "eval".
Proof.
  assert (Hrun :
    sandbox_run_cpython ("import os" +:+ cpython.nl +:+ "eval('1')")
      module_init
    = (Raised (SafetyError "Imports are not allowed in sandbox mode."),
       module_init)) by (vm_compute; reflexivity).
  cbv zeta. split; [reflexivity|]. split; [find_node|]. split; [in_table|].
  split; [exact Hrun|].
  intros (msg & σ' & Hmsg & Hnames). rewrite Hrun in Hmsg.
  injection Hmsg as <- _. revert Hnames. apply not_names. reflexivity.
Qed.

Lemma denied_attribute_fails_check id ctx attr actx σ :
  id ∈ DANGEROUS_ATTR_PARENTS σ ->
  static_checks_node
    (ast.NExpr (ast.Attribute (ast.Name id ctx) attr actx)) σ
  = (Raised (SafetyError
       ("Access to '" +:+ id +:+ "." +:+ attr
          +:+ "' is not allowed in sandbox mode.")), σ).
Proof. intros Hid. run_checks. rewrite decide_True by exact Hid. reflexivity. Qed.

Lemma denied_attribute_call_fails_check id ctx attr actx args kws σ :
  id ∈ DANGEROUS_ATTR_PARENTS σ ->
  static_checks_node
    (ast.NExpr
       (ast.Call (ast.Attribute (ast.Name id ctx) attr actx) args kws)) σ
  = (Raised (SafetyError
       ("Access to '" +:+ id +:+ "." +:+ attr
          +:+ "()' is not allowed in sandbox mode.")), σ).
Proof. intros Hid. run_checks. rewrite decide_True by exact Hid. reflexivity. Qed.

Lemma access_message_names id attr tail :
  let msg := "Access to '" +:+ id +:+ "." +:+ attr +:+ tail in
  names msg id /\ names msg attr.
Proof.
  cbv zeta. split.
  - eexists _, _. reflexivity.
  - exists ("Access to '" +:+ id +:+ "."), tail.
    rewrite !append_assoc. reflexivity.
Qed.

(** C3, as the code has it.  A tree that holds an attribute access
    [<name>.<attr>] whose root is a bare name in [DANGEROUS_ATTR_PARENTS] is
    rejected with a [SafetyError], whether the attribute is called or only
    read.  The message is that of the first node, in [ast.walk] order, that
    fails a check: when that node is the call [<name>.<attr>(...)] the
    message is [Access to '<name>.<attr>()' is not allowed in sandbox
    mode.] and names both the root and the attribute; when it is the
    attribute node itself the message is the same without the brackets. *)
Theorem denied_attribute_rejected (tree : ast.AST) (σ : process)
    id ctx attr actx :
  ast.subnode tree (ast.NExpr (ast.Attribute (ast.Name id ctx) attr actx)) ->
  id ∈ DANGEROUS_ATTR_PARENTS σ ->
  exists msg,
    static_checks tree σ = (Raised (SafetyError msg), σ)
    /\ (exists pre first post,
          ast.walk tree = pre ++ first :: post
          /\ (forall n, n ∈ pre -> static_checks_node n σ = (Returned tt, σ))
          /\ static_checks_node first σ = (Raised (SafetyError msg), σ))
    /\ (forall args kws pre post,
          ast.walk tree
            = pre ++ ast.NExpr
                       (ast.Call (ast.Attribute (ast.Name id ctx) attr actx)
                          args kws) :: post ->
          (forall n, n ∈ pre -> static_checks_node n σ = (Returned tt, σ)) ->
          msg = "Access to '" +:+ id +:+ "." +:+ attr
                  +:+ "()' is not allowed in sandbox mode."
          /\ names msg id /\ names msg attr)
    /\ (forall pre post,
          ast.walk tree
            = pre ++ ast.NExpr (ast.Attribute (ast.Name id ctx) attr actx)
                  :: post ->
          (forall n, n ∈ pre -> static_checks_node n σ = (Returned tt, σ)) ->
          msg = "Access to '" +:+ id +:+ "." +:+ attr
                  +:+ "' is not allowed in sandbox mode."
          /\ names msg id /\ names msg attr).
Proof.
  intros Hsub Hid.
  pose proof (denied_attribute_fails_check id ctx attr actx σ Hid) as Hread.
  destruct (static_checks_rejects _ _ _ _ Hsub Hread) as [msg Hmsg].
  exists msg. split; [exact Hmsg|].
  split; [exact (static_checks_raised_by _ _ _ Hmsg)|]. split.
  - intros args kws pre post Hwalk Hpre.
    pose proof (denied_attribute_call_fails_check id ctx attr actx args kws
                  σ Hid) as Hcall.
    rewrite (static_checks_first _ _ _ _ _ _ Hwalk Hpre Hcall) in Hmsg.
    injection Hmsg as <-. split; [reflexivity|].
    apply access_message_names.
  - intros pre post Hwalk Hpre.
    rewrite (static_checks_first _ _ _ _ _ _ Hwalk Hpre Hread) in Hmsg.
    injection Hmsg as <-. split; [reflexivity|].
    apply access_message_names.
Qed.

Lemma denied_attribute_rejected_witness :
  ast.subnode (ast.NMod cpython.read_os_path)
    (ast.NExpr (ast.Attribute (ast.Name "os" ast.Load) "path" ast.Load))
  /\ "os" ∈ DANGEROUS_ATTR_PARENTS module_init
  /\ exists msg,
       static_checks (ast.NMod cpython.read_os_path) module_init
       = (Raised (SafetyError msg), module_init)
       /\ (exists pre first post,
             ast.walk (ast.NMod cpython.read_os_path) = pre ++ first :: post
             /\ (forall n, n ∈ pre ->
                   static_checks_node n module_init
                   = (Returned tt, module_init))
             /\ static_checks_node first module_init
                = (Raised (SafetyError msg), module_init))
       /\ (forall args kws pre post,
             ast.walk (ast.NMod cpython.read_os_path)
               = pre ++ ast.NExpr
                          (ast.Call
                             (ast.Attribute (ast.Name "os" ast.Load) "path"
                                ast.Load) args kws) :: post ->
             (forall n, n ∈ pre ->
                static_checks_node n module_init = (Returned tt, module_init)) ->
             msg = "Access to '" +:+ "os" +:+ "." +:+ "path"
                     +:+ "()' is not allowed in sandbox mode."
             /\ names msg "os" /\ names msg "path")
       /\ (forall pre post,
             ast.walk (ast.NMod cpython.read_os_path)
               = pre ++ ast.NExpr
                          (ast.Attribute (ast.Name "os" ast.Load) "path"
                             ast.Load) :: post ->
             (forall n, n ∈ pre ->
                static_checks_node n module_init = (Returned tt, module_init)) ->
             msg = "Access to '" +:+ "os" +:+ "." +:+ "path"
                     +:+ "' is not allowed in sandbox mode."
             /\ names msg "os" /\ names msg "path").
Proof.
  split; [find_node|]. split; [in_table|].
  apply (denied_attribute_rejected (ast.NMod cpython.read_os_path)
           module_init "os" ast.Load "path" ast.Load);
    [find_node | in_table].
Defined.

(** C3, as stated, fails on [eval(os.system('ls'))]: the tree holds the
    attribute call [os.system(...)] with [os] in [DANGEROUS_ATTR_PARENTS],
    and the rejection message is [Use of 'eval()' is not allowed in sandbox
    mode.], the message of the enclosing call that [ast.walk] reaches
    first; it names neither [os] nor [system]. *)
Lemma denied_attribute_message_counterexample :
  let tree := ast.NMod cpython.eval_of_os_system in
  ast.subnode tree
    (ast.NExpr
       (ast.Call (ast.Attribute (ast.Name "os" ast.Load) "system" ast.Load)
          [cpython.text "ls"] []))
  /\ "os" ∈ DANGEROUS_ATTR_PARENTS module_init
  /\ static_checks tree module_init
     = (Raised (SafetyError "Use of 'eval()' is not allowed in sandbox mode."),
        module_init)
  /\ ~ exists msg σ',
         static_checks tree module_init = (Raised (SafetyError msg), σ')
         /\ names msg "os" /\ names msg "system".
Proof.
  assert (Hrun :
    static_checks (ast.NMod cpython.eval_of_os_system) module_init
    = (Raised (SafetyError "Use of 'eval()' is not allowed in sandbox mode."),
       module_init)) by (vm_compute; reflexivity).
  cbv zeta. split; [find_node|]. split; [in_table|]. split; [exact Hrun|].
  intros (msg & σ' & Hmsg & Hos & _). rewrite Hrun in Hmsg.
  injection Hmsg as <- _. revert Hos. apply not_names. reflexivity.
Qed.

Lemma call_passes id ctx args kws σ :
  id ∉ DANGEROUS_NAMES σ ->
  static_checks_node (ast.NExpr (ast.Call (ast.Name id ctx) args kws)) σ
  = (Returned tt, σ).
Proof. intros Hid. run_checks. rewrite decide_False by exact Hid. reflexivity. Qed.

Lemma print_tree_passes σ :
  "print" ∉ DANGEROUS_NAMES σ ->
  static_checks (ast.NMod cpython.print_2_2) σ = (Returned tt, σ).
Proof.
  intros Hprint. apply for_each_pass. intros n Hn. vm_compute in Hn.
  repeat (apply elem_of_cons in Hn as [->|Hn]);
    try (apply uninspected_passes; reflexivity).
  - apply call_passes, Hprint.
  - inversion Hn.
Qed.

(** [LOAD_NAME print] goes through the empty locals and the globals to the
    builtins table; the rest of the run does not read the state. *)
Lemma print_tree_runs σ :
  ALLOWED_BUILTINS σ !! "print" = Some (VBuiltin "print") ->
  py.exec cpython.print_2_2
    {| f_globals := {[ "__builtins__" := VAllowedBuiltins ]};
       f_locals := ∅; f_stdout := EmptyString |} σ
  = (Returned
       {| f_globals := {[ "__builtins__" := VAllowedBuiltins ]};
          f_locals := ∅;
          f_stdout := String "4" (String "010" EmptyString) |}, σ).
Proof.
  intros Hprint. unfold py.exec, cpython.print_2_2.
  cbn [for_each py.exec_stmt py.eval].
  unfold mbind, ST_bind, mret, ST_ret.
  rewrite decide_False by discriminate.
  unfold py.load_name, mbind, ST_bind, gets. cbn beta iota.
  cbn [f_locals f_globals].
  rewrite lookup_empty, lookup_singleton_ne by discriminate.
  rewrite lookup_singleton_eq, Hprint. reflexivity.
Qed.

(** C4.  With the parser answering CPython's tree for [print(2 + 2)],
    [sandbox_run] returns the digit 4 followed by one newline, and the
    stripped form of that output is [4].  This holds in the freshly loaded
    module, and in every state of the process in which [print] is not
    denied and the builtins table still binds it to the builtin. *)
Theorem print_2_plus_2 (parse : string -> exn + ast.mod_) (σ : process) :
  parse "print(2 + 2)" = inr cpython.print_2_2 ->
  "print" ∉ DANGEROUS_NAMES σ ->
  ALLOWED_BUILTINS σ !! "print" = Some (VBuiltin "print") ->
  sandbox_run parse py.compile py.exec "print(2 + 2)" σ
  = (Returned (String "4" (String "010" EmptyString)), σ)
  /\ strip (String "4" (String "010" EmptyString)) = "4".
Proof.
  intros Hparse Hdenied Hprint. split; [|reflexivity].
  rewrite (sandbox_run_accepted parse py.compile py.exec _ _ _ Hparse
             (print_tree_passes σ Hdenied)).
  change (py.compile cpython.print_2_2) with (@inr exn _ cpython.print_2_2).
  cbv beta iota. rewrite (print_tree_runs σ Hprint). reflexivity.
Qed.

Lemma print_2_plus_2_witness :
  cpython.parse "print(2 + 2)" = inr cpython.print_2_2
  /\ ("print" ∉ DANGEROUS_NAMES module_init)
  /\ ALLOWED_BUILTINS module_init !! "print" = Some (VBuiltin "print")
  /\ sandbox_run cpython.parse py.compile py.exec "print(2 + 2)" module_init
     = (Returned (String "4" (String "010" EmptyString)), module_init)
  /\ strip (String "4" (String "010" EmptyString)) = "4".
Proof.
  split; [reflexivity|]. split; [in_table|]. split; [vm_compute; reflexivity|].
  apply (print_2_plus_2 cpython.parse module_init);
    [reflexivity | in_table | vm_compute; reflexivity].
Defined.

(** C5, evaluated.  Each call does build a new globals dict, a new locals
    dict and a new buffer, and a name bound by an assignment lands in the
    locals of its own call: after [x = 5], [print(x)] raises [NameError].
    But the globals dict holds [ALLOWED_BUILTINS] itself, not a copy, under
    [__builtins__]: the program [__builtins__['leak'] = 42] stores into the
    module-level dict, and in the next call [print(leak)], which raises
    [NameError] in a fresh process, prints 42. *)
Theorem builtins_table_leaks_between_calls :
  let first := sandbox_run_cpython "__builtins__['leak'] = 42" module_init in
  fst first = Returned EmptyString
  /\ ALLOWED_BUILTINS (snd first) !! "leak" = Some (VInt 42)
  /\ sandbox_run_cpython "print(leak)" module_init
     = (Raised (NameError "name 'leak' is not defined"), module_init)
  /\ sandbox_run_cpython "print(leak)" (snd first)
     = (Returned (String "4" (String "2" (String "010" EmptyString))), snd first)
  /\ sandbox_run_cpython "print(x)"
       (snd (sandbox_run_cpython "x = 5" module_init))
     = (Raised (NameError "name 'x' is not defined"), module_init).
Proof. cbv zeta. repeat split; vm_compute; reflexivity. Qed.

(** The same defect lets one call disable a builtin for the next ones: after
    [__builtins__['print'] = 0] the program of C4 no longer runs. *)
Example print_rebound_between_calls :
  fst (sandbox_run_cpython "print(2 + 2)"
         (snd (sandbox_run_cpython "__builtins__['print'] = 0" module_init)))
  = Raised (TypeError "'int' object is not callable").
Proof. vm_compute. reflexivity. Qed.

(** C6, as the code has it.  When [ast.parse] raises a [SyntaxError],
    [sandbox_run] fails with that very exception, line number and message
    as the parser set them; it is not a [SafetyError]; and it is raised
    before vetting, compilation and execution: the result does not depend
    on the deny tables nor on [compile] and [exec], and the state is
    untouched. *)
Theorem syntax_error_propagates
    (parse : string -> exn + ast.mod_) (code : string) (σ : process)
    lineno msg :
  parse code = inl (SyntaxError lineno msg) ->
  forall (code_object : Type) (compile : ast.mod_ -> exn + code_object)
         (exec : code_object -> frame -> M frame),
    sandbox_run parse compile exec code σ = (Raised (SyntaxError lineno msg), σ)
    /\ forall reason σ',
         sandbox_run parse compile exec code σ
         <> (Raised (SafetyError reason), σ').
Proof.
  intros Hparse code_object compile exec.
  rewrite (sandbox_run_parse_error parse compile exec _ _ _ Hparse).
  split; [reflexivity|]. intros reason σ' Habs. discriminate Habs.
Qed.

Lemma syntax_error_propagates_witness :
  cpython.parse "print(2 + 2"
    = inl (SyntaxError (Some 1%Z) "'(' was never closed")
  /\ forall (code_object : Type) (compile : ast.mod_ -> exn + code_object)
            (exec : code_object -> frame -> M frame),
       sandbox_run cpython.parse compile exec "print(2 + 2" module_init
       = (Raised (SyntaxError (Some 1%Z) "'(' was never closed"), module_init)
       /\ forall reason σ',
            sandbox_run cpython.parse compile exec "print(2 + 2" module_init
            <> (Raised (SafetyError reason), σ').
Proof.
  split; [reflexivity|].
  apply (syntax_error_propagates cpython.parse "print(2 + 2" module_init
           (Some 1%Z) "'(' was never closed").
  reflexivity.
Defined.

(** C6, as stated, fails on the source made of one NUL character: it does
    not form a syntax tree, and what CPython 3.11's [ast.parse] raises on
    it, and [sandbox_run] passes on, is a [ValueError], which is no
    [SyntaxError] and carries no line number.  (From CPython 3.12 on the
    parser raises a [SyntaxError] there whose [lineno] is [None].) *)
Lemma nul_source_counterexample :
  cpython.parse cpython.nul
    = inl (ValueError "source code string cannot contain null bytes")
  /\ sandbox_run_cpython cpython.nul module_init
     = (Raised (ValueError "source code string cannot contain null bytes"),
        module_init)
  /\ ~ exists lineno msg σ',
         sandbox_run_cpython cpython.nul module_init
         = (Raised (SyntaxError (Some lineno) msg), σ').
Proof.
  split; [reflexivity|]. split; [vm_compute; reflexivity|].
  intros (lineno & msg & σ' & Habs). vm_compute in Habs. discriminate Habs.
Qed.

(** * Further properties of the code *)

(** ** The walk and the decision of [static_checks] *)

(** X1.  [ast.walk] yields a node exactly when it is the root or lies below
    it: nothing of the tree is skipped and nothing foreign is visited. *)
Theorem walk_visits_the_tree (root d : ast.AST) :
  d ∈ ast.walk root <-> ast.subnode root d.
Proof.
  split; [apply ast_facts.walk_sound | apply ast_facts.walk_complete].
Qed.

(** X2.  The decision of [static_checks] does not depend on the order of
    the walk: a tree is accepted exactly when none of its nodes is an
    import, a [with] block, a call of a bare name in [DANGEROUS_NAMES], or
    an attribute access or attribute call rooted at a bare name in
    [DANGEROUS_ATTR_PARENTS]. *)
Theorem static_checks_accepts_iff (tree : ast.AST) (σ : process) :
  static_checks tree σ = (Returned tt, σ)
  <-> forall n, ast.subnode tree n -> rejected σ n = false.
Proof.
  split.
  - intros Hok n Hn. apply static_checks_node_rejected.
    destruct (static_checks_node_outcome n σ) as [H|[msg H]]; [exact H|].
    destruct (static_checks_rejects _ _ _ _ Hn H) as [msg' Hrej].
    congruence.
  - intros Hall. apply static_checks_accepts.
    intros n Hn. apply static_checks_node_rejected, Hall, Hn.
Qed.

(** X3.  No name bound in [ALLOWED_BUILTINS] is in [DANGEROUS_NAMES]: in the
    freshly loaded module, a tree whose only inspected nodes are direct
    calls of allowed builtins passes vetting. *)
Theorem allowed_builtin_calls_accepted (tree : ast.AST) :
  (forall n, ast.subnode tree n -> inspected n = true ->
     exists id ctx args kws,
       n = ast.NExpr (ast.Call (ast.Name id ctx) args kws)
       /\ is_Some (ALLOWED_BUILTINS module_init !! id)) ->
  static_checks tree module_init = (Returned tt, module_init).
Proof.
  intros Hcalls. apply static_checks_accepts. intros n Hn.
  destruct (inspected n) eqn:Hshape; [|apply uninspected_passes, Hshape].
  destruct (Hcalls n Hn Hshape) as (id & ctx & args & kws & -> & Hid).
  apply call_passes. intros Hdenied.
  assert (Hdisjoint :
    dom (ALLOWED_BUILTINS module_init) ∩ DANGEROUS_NAMES module_init = ∅)
    by (vm_compute; reflexivity).
  apply elem_of_dom in Hid.
  assert (id ∈ (∅ : gset string)) as Hin
    by (rewrite <- Hdisjoint; apply elem_of_intersection; auto).
  exact (not_elem_of_empty _ Hin).
Qed.

Lemma allowed_builtin_calls_accepted_witness :
  (forall n, ast.subnode (ast.NMod cpython.print_2_2) n ->
     inspected n = true ->
     exists id ctx args kws,
       n = ast.NExpr (ast.Call (ast.Name id ctx) args kws)
       /\ is_Some (ALLOWED_BUILTINS module_init !! id))
  /\ static_checks (ast.NMod cpython.print_2_2) module_init
     = (Returned tt, module_init).
Proof.
  assert (Hcalls : forall n, ast.subnode (ast.NMod cpython.print_2_2) n ->
     inspected n = true ->
     exists id ctx args kws,
       n = ast.NExpr (ast.Call (ast.Name id ctx) args kws)
       /\ is_Some (ALLOWED_BUILTINS module_init !! id)).
  { intros n Hn Hshape. apply ast_facts.walk_complete in Hn.
    vm_compute in Hn.
    repeat (apply elem_of_cons in Hn as [->|Hn]); try discriminate Hshape.
    - eexists _, _, _, _. split; [reflexivity|].
      exists (VBuiltin "print"). vm_compute. reflexivity.
    - inversion Hn. }
  split; [exact Hcalls|].
  apply (allowed_builtin_calls_accepted (ast.NMod cpython.print_2_2) Hcalls).
Defined.

(** ** [sandbox_run]: what reaches [exec] *)

(** X4.  [exec] is consulted only on a tree that was parsed, vetted in full
    and compiled: if the result of [sandbox_run] depends on what [exec]
    does, then the source parsed, [static_checks] accepted the whole tree
    and [compile] returned. *)
Theorem exec_only_after_vetting
    (parse : string -> exn + ast.mod_) (code_object : Type)
    (compile : ast.mod_ -> exn + code_object)
    (exec1 exec2 : code_object -> frame -> M frame)
    (code : string) (σ : process) :
  sandbox_run parse compile exec1 code σ
    <> sandbox_run parse compile exec2 code σ ->
  exists tree bytecode,
    parse code = inr tree
    /\ static_checks (ast.NMod tree) σ = (Returned tt, σ)
    /\ compile tree = inr bytecode.
Proof.
  intros Hdiff.
  destruct (parse code) as [e|tree] eqn:Hparse.
  { exfalso. apply Hdiff.
    rewrite !(sandbox_run_parse_error parse compile _ _ _ _ Hparse).
    reflexivity. }
  destruct (static_checks_outcome (ast.NMod tree) σ) as [Hok|[msg Hrej]].
  2:{ exfalso. apply Hdiff.
      rewrite !(sandbox_run_rejected parse compile _ _ _ _ _ _ Hparse Hrej).
      reflexivity. }
  destruct (compile tree) as [e|bytecode] eqn:Hcompile.
  { exfalso. apply Hdiff.
    rewrite !(sandbox_run_accepted parse compile _ _ _ _ Hparse Hok), Hcompile.
    reflexivity. }
  exists tree, bytecode. auto.
Qed.

Lemma exec_only_after_vetting_witness :
  sandbox_run cpython.parse py.compile py.exec "print(2 + 2)" module_init
    <> sandbox_run cpython.parse py.compile (fun _ fr => mret fr)
         "print(2 + 2)" module_init
  /\ exists tree bytecode,
       cpython.parse "print(2 + 2)" = inr tree
       /\ static_checks (ast.NMod tree) module_init
          = (Returned tt, module_init)
       /\ py.compile tree = inr bytecode.
Proof.
  assert (Hdiff :
    sandbox_run cpython.parse py.compile py.exec "print(2 + 2)" module_init
    <> sandbox_run cpython.parse py.compile (fun _ fr => mret fr)
         "print(2 + 2)" module_init).
  { intros Heq. apply (f_equal fst) in Heq. vm_compute in Heq.
    discriminate Heq. }
  split; [exact Hdiff|].
  apply (exec_only_after_vetting cpython.parse ast.mod_ py.compile py.exec
           (fun _ fr => mret fr) "print(2 + 2)" module_init Hdiff).
Defined.

(** ** [analyze_code_structure] *)

Lemma counts_cons names n l :
  counts names (n :: l)
  = (if bool_decide (ast.class_name n ∈ names) then 1 else 0)
    + counts names l.
Proof.
  unfold counts. rewrite filter_cons.
  case_decide; case_bool_decide; try contradiction; reflexivity.
Qed.

Ltac class_test :=
  repeat match goal with
  | |- context [bool_decide (?x ∈ ?l)] =>
      let b := eval vm_compute in (bool_decide (x ∈ l)) in
      change (bool_decide (x ∈ l)) with b
  end; cbv iota.

(** What one iteration of the loop adds to each entry. *)
Lemma analyze_node_adds i node :
  let i' := analyze_node i node in
  functions i' = functions i ++ option_list (function_entry node)
  /\ classes i' = classes i ++ option_list (class_entry node)
  /\ assignments i'
     = assignments i
       + (if bool_decide
               (ast.class_name node ∈ ["Assign"; "AnnAssign"; "AugAssign"])
          then 1 else 0)
  /\ loops i'
     = loops i
       + (if bool_decide (ast.class_name node ∈ ["For"; "While"; "AsyncFor"])
          then 1 else 0)
  /\ conditionals i'
     = conditionals i
       + (if bool_decide (ast.class_name node ∈ ["If"]) then 1 else 0)
  /\ returns i'
     = returns i
       + (if bool_decide (ast.class_name node ∈ ["Return"]) then 1 else 0)
  /\ imports i'
     = imports i
       + (if bool_decide (ast.class_name node ∈ ["Import"; "ImportFrom"])
          then 1 else 0)
  /\ calls i' = calls i ∪ called node.
Proof.
  cbv zeta.
  destruct node as [[body]|s|e|c|o|o|o|o|c|h|a|a|k|a|w|c|p];
    [ | destruct s | destruct e as [| | | | | | | | | | | | | | | |func ? ?| | | | | | | | | |]
    | destruct c | destruct o | destruct o | destruct o | destruct o
    | | | | | | | | | destruct p ];
    try destruct func;
    cbn [analyze_node add_call function_entry class_entry callee_name called
         option_list ast.class_name functions classes assignments loops
         conditionals returns calls imports];
    class_test;
    rewrite ?app_nil_r, ?Nat.add_0_r;
    repeat split;
    first [ reflexivity
          | symmetry; apply (right_id_L ∅ (∪))
          | apply (comm_L (∪)) ].
Qed.

Lemma fold_analyze l i :
  let r := fold_left analyze_node l i in
  functions r = functions i ++ omap function_entry l
  /\ classes r = classes i ++ omap class_entry l
  /\ assignments r
     = assignments i + counts ["Assign"; "AnnAssign"; "AugAssign"] l
  /\ loops r = loops i + counts ["For"; "While"; "AsyncFor"] l
  /\ conditionals r = conditionals i + counts ["If"] l
  /\ returns r = returns i + counts ["Return"] l
  /\ imports r = imports i + counts ["Import"; "ImportFrom"] l
  /\ calls r = calls i ∪ ⋃ (map called l).
Proof.
  cbv zeta. revert i. induction l as [|n l IH]; intros i.
  - cbn [fold_left omap list_omap map union_list foldr]. unfold counts.
    cbn [filter list_filter length].
    rewrite !app_nil_r, !Nat.add_0_r, (right_id_L ∅ (∪)). auto 10.
  - cbn [fold_left].
    destruct (IH (analyze_node i n))
      as (Hf & Hc & Ha & Hl & Hi & Hr & Him & Hcalls).
    destruct (analyze_node_adds i n)
      as (Hf' & Hc' & Ha' & Hl' & Hi' & Hr' & Him' & Hcalls').
    rewrite Hf, Hc, Ha, Hl, Hi, Hr, Him, Hcalls.
    rewrite Hf', Hc', Ha', Hl', Hi', Hr', Him', Hcalls'.
    rewrite !counts_cons. cbn [omap list_omap map union_list foldr].
    repeat split; try lia.
    + rewrite <- app_assoc. f_equal.
      destruct (function_entry n); reflexivity.
    + rewrite <- app_assoc. f_equal.
      destruct (class_entry n); reflexivity.
    + rewrite (assoc_L (∪)). reflexivity.
Qed.

Lemma imports_counted (tree : ast.AST) :
  imports (analyze_code_structure tree)
  = count_class ["Import"; "ImportFrom"] tree.
Proof.
  unfold analyze_code_structure, count_class.
  destruct (fold_analyze (ast.walk tree) info_init)
    as (_ & _ & _ & _ & _ & _ & Him & _).
  cbn [imports]. rewrite Him. reflexivity.
Qed.

(** X5.  The five counters of the report are the numbers of nodes of the
    matching classes anywhere in the tree, at any depth: assignments count
    [Assign], [AnnAssign] and [AugAssign]; loops count [For], [While] and
    [AsyncFor]; conditionals count [If] (an [elif] is an [If] node of its
    own); returns count [Return]; imports count [Import] and
    [ImportFrom]. *)
Theorem analyze_counts (tree : ast.AST) :
  let i := analyze_code_structure tree in
  assignments i = count_class ["Assign"; "AnnAssign"; "AugAssign"] tree
  /\ loops i = count_class ["For"; "While"; "AsyncFor"] tree
  /\ conditionals i = count_class ["If"] tree
  /\ returns i = count_class ["Return"] tree
  /\ imports i = count_class ["Import"; "ImportFrom"] tree.
Proof.
  cbv zeta. unfold analyze_code_structure, count_class.
  destruct (fold_analyze (ast.walk tree) info_init)
    as (_ & _ & Ha & Hl & Hi & Hr & Him & _).
  cbn [assignments loops conditionals returns imports].
  rewrite Ha, Hl, Hi, Hr, Him. cbn [info_init assignments loops conditionals
    returns imports]. auto.
Qed.

(** X6.  The report lists one function per [FunctionDef] node of the tree,
    nested ones included, in the order of the walk, each with the names of
    its plain positional parameters only; [async def] functions are not
    listed.  The classes are the [ClassDef] nodes in the same order. *)
Theorem analyze_functions_and_classes (tree : ast.AST) :
  let i := analyze_code_structure tree in
  functions i = omap function_entry (ast.walk tree)
  /\ classes i = omap class_entry (ast.walk tree).
Proof.
  cbv zeta. unfold analyze_code_structure.
  destruct (fold_analyze (ast.walk tree) info_init) as (Hf & Hc & _).
  cbn [functions classes]. rewrite Hf, Hc. auto.
Qed.

Lemma elem_of_called name node :
  name ∈ called node <-> callee_name node = Some name.
Proof.
  unfold called. destruct (callee_name node) as [name'|].
  - rewrite elem_of_singleton. split; congruence.
  - split; [intros H; exfalso; exact (not_elem_of_empty _ H) | discriminate].
Qed.

(** X7.  The calls of the report are in ascending order without
    repetition, and a name is listed exactly when some call in the tree has
    it as its bare-name callee or as the attribute it calls. *)
Theorem analyze_calls (tree : ast.AST) :
  let i := analyze_code_structure tree in
  Sorted String.le (calls i)
  /\ NoDup (calls i)
  /\ forall name,
       name ∈ calls i
       <-> exists n, ast.subnode tree n /\ callee_name n = Some name.
Proof.
  cbv zeta. unfold analyze_code_structure. cbn [calls]. unfold sorted.
  destruct (fold_analyze (ast.walk tree) info_init)
    as (_ & _ & _ & _ & _ & _ & _ & Hcalls).
  rewrite Hcalls. cbn [info_init calls]. rewrite (left_id_L ∅ (∪)).
  split; [apply Sorted_merge_sort; apply _|]. split.
  - rewrite merge_sort_Permutation. apply NoDup_elements.
  - intros name. rewrite merge_sort_Permutation, elem_of_elements.
    rewrite elem_of_union_list. split.
    + intros (X & HX & Hname). apply list_elem_of_fmap in HX as (n & -> & Hn).
      exists n. split; [apply ast_facts.walk_sound, Hn|].
      apply elem_of_called, Hname.
    + intros (n & Hn & Hname). exists (called n). split.
      * apply list_elem_of_fmap. exists n. split; [reflexivity|].
        apply ast_facts.walk_complete, Hn.
      * apply elem_of_called, Hname.
Qed.

Lemma counts_pos names l :
  counts names l <> 0 -> exists n, n ∈ l /\ ast.class_name n ∈ names.
Proof.
  unfold counts. intros Hpos.
  match type of Hpos with
  | length ?kept <> 0 => destruct kept as [|n rest] eqn:E
  end; [contradiction|].
  assert (Hn : n ∈ n :: rest) by apply list_elem_of_here.
  rewrite <- E in Hn. apply list_elem_of_filter in Hn as [Hclass Hn]. eauto.
Qed.

Lemma import_class_rejected σ node :
  ast.class_name node ∈ ["Import"; "ImportFrom"] -> rejected σ node = true.
Proof.
  intros Hclass.
  assert (Htest :
    bool_decide (ast.class_name node ∈ ["Import"; "ImportFrom"]) = true)
    by (apply bool_decide_eq_true_2, Hclass).
  clear Hclass. revert Htest.
  destruct node as [[body]|s|e|c|o|o|o|o|c|h|a|a|k|a|w|c|p];
    [ | destruct s | destruct e | destruct c | destruct o | destruct o
    | destruct o | destruct o | | | | | | | | | destruct p ];
    cbn [ast.class_name]; class_test; intros H;
    first [ discriminate H | reflexivity ].
Qed.

(** X8.  When the report counts at least one import, [sandbox_run] on the
    same source raises a [SafetyError] before [compile] and [exec] are
    consulted: the remark that the snippet will not run in the sandbox is
    never a false alarm. *)
Theorem reported_import_is_rejected
    (parse : string -> exn + ast.mod_) (code : string) (tree : ast.mod_)
    (σ : process) :
  parse code = inr tree ->
  imports (analyze_code_structure (ast.NMod tree)) <> 0 ->
  exists msg,
    forall (code_object : Type) (compile : ast.mod_ -> exn + code_object)
           (exec : code_object -> frame -> M frame),
      sandbox_run parse compile exec code σ = (Raised (SafetyError msg), σ).
Proof.
  intros Hparse Himports.
  rewrite imports_counted in Himports.
  destruct (counts_pos _ _ Himports) as (n & Hn & Hclass).
  apply ast_facts.walk_sound in Hn.
  pose proof (import_class_rejected σ n Hclass) as Hrej.
  destruct (static_checks_node_outcome n σ) as [Hok|[m Hfail]].
  { apply static_checks_node_rejected in Hok. congruence. }
  destruct (static_checks_rejects _ _ _ _ Hn Hfail) as [msg Hmsg].
  exists msg. intros code_object compile exec.
  exact (sandbox_run_rejected parse compile exec _ _ _ _ _ Hparse Hmsg).
Qed.

Lemma reported_import_is_rejected_witness :
  let code := "import os" +:+ cpython.nl +:+ "eval('1')" in
  cpython.parse code = inr cpython.import_then_eval
  /\ imports (analyze_code_structure (ast.NMod cpython.import_then_eval)) <> 0
  /\ exists msg,
       forall (code_object : Type) (compile : ast.mod_ -> exn + code_object)
              (exec : code_object -> frame -> M frame),
         sandbox_run cpython.parse compile exec code module_init
         = (Raised (SafetyError msg), module_init).
Proof.
  cbv zeta. split; [reflexivity|].
  assert (Himports :
    imports (analyze_code_structure (ast.NMod cpython.import_then_eval)) <> 0)
    by (vm_compute; discriminate).
  split; [exact Himports|].
  apply (reported_import_is_rejected cpython.parse _
           cpython.import_then_eval module_init); [reflexivity|exact Himports].
Defined.

(** ** [offline_explain] *)

(** X9.  [offline_explain] catches [SyntaxError] only: it raises exactly when
    the parser raised an exception of another class, and then raises that
    exception; a syntax error comes back as the text
    [Syntax error on line <n>: <msg>]. *)
Theorem offline_explain_raises
    (parse : string -> exn + ast.mod_) (code : string) (e : exn) :
  offline_explain parse code = inl e
  <-> parse code = inl e /\ forall lineno msg, e <> SyntaxError lineno msg.
Proof.
  unfold offline_explain. split.
  - destruct (parse code) as [[]|tree]; intros H; simplify_eq;
      split; try reflexivity; intros lineno' msg'; discriminate.
  - intros [-> Hclass]. destruct e; try reflexivity.
    exfalso. exact (Hclass _ _ eq_refl).
Qed.

Lemma offline_explain_syntax_error
    (parse : string -> exn + ast.mod_) (code : string) lineno msg :
  parse code = inl (SyntaxError lineno msg) ->
  offline_explain parse code
  = inr ("Syntax error on line " +:+ lineno_text lineno +:+ ": " +:+ msg).
Proof. unfold offline_explain. intros ->. reflexivity. Qed.

Ltac other_line H :=
  apply (f_equal (String.get 2)) in H; vm_compute in H; discriminate H.

(** X10.  The report holds the line [- Imports present: <k> (won't run in
    sandbox)] exactly when the tree has an import: never for a tree
    without one, and with the number of import statements otherwise. *)
Theorem imports_warning_iff (tree : ast.AST) :
  let i := analyze_code_structure tree in
  (exists k, imports_warning k ∈ offline_lines i)
  <-> count_class ["Import"; "ImportFrom"] tree <> 0.
Proof.
  cbv zeta. rewrite <- imports_counted.
  set (i := analyze_code_structure tree). split.
  - intros [k Hin] Hzero. unfold offline_lines in Hin. rewrite Hzero in Hin.
    destruct (functions i), (classes i), (calls i); cbv iota in Hin;
      repeat first
        [ apply elem_of_app in Hin as [Hin|Hin]
        | apply elem_of_cons in Hin as [Hin|Hin] ];
      try (unfold imports_warning in Hin; other_line Hin);
      inversion Hin.
  - intros Hpos. exists (imports i). unfold offline_lines.
    destruct (imports i) as [|k] eqn:Hk; [contradiction|].
    do 5 (apply elem_of_app; right). apply elem_of_app. left.
    apply list_elem_of_here.
Qed.

(** ** The buttons *)

Lemma lstrip_empty s :
  lstrip s = EmptyString
  <-> Forall (fun c => isspace c = true) (list_ascii_of_string s).
Proof.
  induction s as [|c s IH]; cbn [lstrip list_ascii_of_string].
  - split; [constructor | reflexivity].
  - destruct (isspace c) eqn:Hc.
    + rewrite IH. split; [constructor; assumption|].
      intros H. inversion H; assumption.
    + split; [discriminate|]. intros H. inversion H; congruence.
Qed.

Lemma lstrip_head s :
  lstrip s = EmptyString
  \/ exists c t, lstrip s = String c t /\ isspace c = false.
Proof.
  induction s as [|c s IH]; cbn [lstrip]; [left; reflexivity|].
  destruct (isspace c) eqn:Hc; [exact IH|]. right. eauto.
Qed.

Lemma rev_app_chars s acc :
  list_ascii_of_string (String.rev_app s acc)
  = rev (list_ascii_of_string s) ++ list_ascii_of_string acc.
Proof.
  revert acc. induction s as [|c s IH]; intros acc; [reflexivity|].
  cbn [String.rev_app list_ascii_of_string rev]. rewrite IH.
  rewrite <- app_assoc. reflexivity.
Qed.

Lemma rev_empty s : String.rev s = EmptyString -> s = EmptyString.
Proof.
  intros H. apply (f_equal list_ascii_of_string) in H.
  unfold String.rev in H. rewrite rev_app_chars, app_nil_r in H.
  destruct s as [|c s]; [reflexivity|].
  cbn [list_ascii_of_string rev] in H.
  destruct (rev (list_ascii_of_string s)); discriminate H.
Qed.

(** [s.strip() == ""] holds exactly for the strings made of whitespace. *)
Lemma strip_empty s :
  strip s = EmptyString
  <-> Forall (fun c => isspace c = true) (list_ascii_of_string s).
Proof.
  rewrite <- lstrip_empty. unfold strip, rstrip. split.
  - intros H%rev_empty.
    destruct (lstrip_head s) as [Hs|(c & t & Hs & Hc)]; [exact Hs|].
    exfalso. apply lstrip_empty in H. rewrite Hs in H.
    unfold String.rev in H. rewrite rev_app_chars, app_nil_r in H.
    rewrite Forall_forall in H.
    assert (isspace c = true); [|congruence].
    apply H, list_elem_of_In, (proj1 (in_rev _ _)).
    cbn [list_ascii_of_string].
    left. reflexivity.
  - intros ->. reflexivity.
Qed.



(** X12.  The Explain button sends the snippet out only on request and
    with a key: if what it shows depends on what the LLM service answers,
    then the LLM box is ticked and [OPENAI_API_KEY] is set and not
    empty. *)
Theorem request_needs_tick_and_key
    (parse : string -> exn + ast.mod_) (getenv : string -> option string)
    (request1 request2 : string -> string -> string -> string + option string)
    (use_llm : bool) (code : string) :
  on_explain parse getenv request1 use_llm code
    <> on_explain parse getenv request2 use_llm code ->
  use_llm = true
  /\ exists key, getenv "OPENAI_API_KEY" = Some key /\ key <> EmptyString.
Proof.
  unfold on_explain, llm_explain. intros Hdiff.
  destruct use_llm; [|contradiction].
  split; [reflexivity|].
  destruct (getenv "OPENAI_API_KEY") as [[|c key]|]; try contradiction.
  exists (String c key). split; [reflexivity | discriminate].
Qed.

Lemma request_needs_tick_and_key_witness :
  let getenv := fun _ : string => Some "sk-test" in
  let request1 := fun _ _ _ : string => @inr string _ (Some "It prints 4.") in
  let request2 := fun _ _ _ : string => @inl _ (option string) "timeout" in
  on_explain cpython.parse getenv request1 true "print(2 + 2)"
    <> on_explain cpython.parse getenv request2 true "print(2 + 2)"
  /\ true = true
  /\ exists key, getenv "OPENAI_API_KEY" = Some key /\ key <> EmptyString.
Proof.
  cbv zeta.
  assert (Hdiff :
    on_explain cpython.parse (fun _ => Some "sk-test")
      (fun _ _ _ => inr (Some "It prints 4.")) true "print(2 + 2)"
    <> on_explain cpython.parse (fun _ => Some "sk-test")
         (fun _ _ _ => inl "timeout") true "print(2 + 2)").
  { intros Heq. vm_compute in Heq. discriminate Heq. }
  split; [exact Hdiff|].
  exact (request_needs_tick_and_key cpython.parse (fun _ => Some "sk-test")
           (fun _ _ _ => inr (Some "It prints 4."))
           (fun _ _ _ => inl "timeout") true "print(2 + 2)" Hdiff).
Defined.

(** ** The reference [exec]: what a run can change *)

Lemma free_of_child class n c :
  free_of class n -> ast.child n c -> free_of class c.
Proof.
  intros Hfree Hc d Hd. apply Hfree.
  eapply ast.subnode_step; [exact Hc | exact Hd].
Qed.

Ltac child_of :=
  unfold ast.child; cbn [ast.iter_child_nodes ast.expr_children
    ast.stmt_children];
  rewrite ?elem_of_app, ?elem_of_cons, ?list_elem_of_fmap; eauto 8.

Lemma str_pure v s : exists r, py.str v s = (r, s).
Proof.
  destruct v as [| [] | | | |]; cbn [py.str]; try case_match; cbn; eauto.
Qed.

Lemma join_str_pure args s : exists r, py.join_str args s = (r, s).
Proof.
  induction args as [|v args IH]; [cbn; eauto|].
  cbn [py.join_str]. destruct args as [|w args]; [apply str_pure|].
  unfold mbind, ST_bind.
  destruct (str_pure v s) as [[a|e] ->]; [|eauto].
  destruct IH as [[b|e] ->]; cbn; eauto.
Qed.

Lemma call_effect f args fr σ :
  exists r out, py.call f args (fr, σ) = (r, (with_stdout fr out, σ)).
Proof.
  assert (Hsame : (fr, σ) = (with_stdout fr (f_stdout fr), σ))
    by (destruct fr; reflexivity).
  unfold py.call.
  repeat case_match; subst;
    try (eexists _, _; unfold raise, mret, ST_ret; rewrite Hsame at 1;
         reflexivity).
  unfold mbind, ST_bind.
  destruct (join_str_pure args (fr, σ)) as [[t|e] ->].
  - eexists _, _. cbn. reflexivity.
  - eexists _, _. rewrite Hsame at 1. reflexivity.
Qed.

Lemma load_name_pure id s : exists r, py.load_name id s = (r, s).
Proof.
  destruct s as [fr σ]. unfold py.load_name, mbind, ST_bind, gets.
  cbn beta iota. repeat case_match; cbn; eauto.
Qed.

Lemma binop_pure op a b s : exists r, py.binop op a b s = (r, s).
Proof. unfold py.binop. repeat case_match; cbn; eauto. Qed.

Lemma getitem_pure obj key s : exists r, py.getitem obj key s = (r, s).
Proof.
  destruct s as [fr σ]. unfold py.getitem, mbind, ST_bind, gets.
  repeat case_match; cbn; eauto.
Qed.

Lemma with_stdout_same fr : with_stdout fr (f_stdout fr) = fr.
Proof. destruct fr; reflexivity. Qed.

(** Evaluating an expression changes neither dict of the frame nor the
    process state; it writes to the stream only through a call. *)
Lemma eval_effect :
  forall (e : ast.expr) (fr : frame) (σ : process),
    exists r out,
      py.eval e (fr, σ) = (r, (with_stdout fr out, σ))
      /\ (free_of "Call" (ast.NExpr e) -> out = f_stdout fr).
Proof.
  fix IH 1. intros e fr σ.
  assert (Hnow : forall r : outcome value,
    exists r' out,
      (r, (fr, σ)) = (r', (with_stdout fr out, σ))
      /\ (free_of "Call" (ast.NExpr e) -> out = f_stdout fr)).
  { intros r. exists r, (f_stdout fr). rewrite with_stdout_same. auto. }
  destruct e as [| |lhs op rhs| | | | | | | | | | | | | |func args kws| |
                 |c ?|
                 |obj key ctx| |id ctx| | |];
    try (apply Hnow).
  - (* BinOp *)
    cbn [py.eval]. unfold mbind, ST_bind.
    destruct (IH lhs fr σ) as (r1 & out1 & -> & H1).
    destruct r1 as [a|]; [|exists (Raised e), out1; split; [reflexivity|]].
    2:{ intros Hfree. apply H1. eapply free_of_child; [exact Hfree|child_of]. }
    destruct (IH rhs (with_stdout fr out1) σ) as (r2 & out2 & -> & H2).
    change (with_stdout (with_stdout fr out1) out2) with (with_stdout fr out2).
    assert (Hout : free_of "Call"
                     (ast.NExpr (ast.BinOp lhs op rhs)) -> out2 = f_stdout fr).
    { intros Hfree. rewrite H2, H1; [reflexivity| |];
        (eapply free_of_child; [exact Hfree|child_of]). }
    destruct r2 as [b|]; [|eauto].
    destruct (binop_pure op a b (with_stdout fr out2, σ)) as [r ->]. eauto.
  - (* Call *)
    cbn [py.eval]. destruct kws as [|kw kws]; [|apply Hnow].
    unfold mbind, ST_bind.
    destruct (IH func fr σ) as (r1 & out1 & -> & _).
    assert (Hcall : ~ free_of "Call" (ast.NExpr (ast.Call func args []))).
    { intros Hfree. apply (Hfree _ (ast.subnode_refl _)). reflexivity. }
    destruct r1 as [f|]; [|exists (Raised e), out1; split; [reflexivity|]].
    2:{ intros Hfree. contradiction. }
    match goal with
    | |- context [?F args (with_stdout fr out1, σ)] =>
        assert (Hargs : forall out0,
          exists r out,
            F args (with_stdout fr out0, σ) = (r, (with_stdout fr out, σ)))
    end.
    { clear Hnow Hcall. induction args as [|a args IHargs]; intros out0.
      - eexists _, _. reflexivity.
      - destruct (IH a (with_stdout fr out0) σ) as (ra & outa & -> & _).
        change (with_stdout (with_stdout fr out0) outa)
          with (with_stdout fr outa).
        destruct ra as [v|]; [|eauto].
        destruct (IHargs outa) as (rs & outs & ->).
        destruct rs; eauto. }
    destruct (Hargs out1) as (rs & outs & ->).
    destruct rs as [vs|]; [|exists (Raised e), outs; split;
                             [reflexivity | intros; contradiction]].
    destruct (call_effect f vs (with_stdout fr outs) σ) as (r & out & ->).
    exists r, out. split; [reflexivity | intros; contradiction].
  - (* Constant *)
    cbn [py.eval]. destruct c; apply Hnow.
  - (* Subscript *)
    cbn [py.eval]. destruct ctx; try apply Hnow.
    unfold mbind, ST_bind.
    destruct (IH obj fr σ) as (r1 & out1 & -> & H1).
    destruct r1 as [o|]; [|exists (Raised e), out1; split; [reflexivity|]].
    2:{ intros Hfree. apply H1. eapply free_of_child; [exact Hfree|child_of]. }
    destruct (IH key (with_stdout fr out1) σ) as (r2 & out2 & -> & H2).
    change (with_stdout (with_stdout fr out1) out2) with (with_stdout fr out2).
    assert (Hout : free_of "Call"
        (ast.NExpr (ast.Subscript obj key ast.Load)) -> out2 = f_stdout fr).
    { intros Hfree. rewrite H2, H1; [reflexivity| |];
        (eapply free_of_child; [exact Hfree|child_of]). }
    destruct r2 as [k|]; [|eauto].
    destruct (getitem_pure o k (with_stdout fr out2, σ)) as [r ->]. eauto.
  - (* Name *)
    cbn [py.eval]. destruct ctx; try apply Hnow.
    case_decide; [apply Hnow|].
    destruct (load_name_pure id (fr, σ)) as [r ->]. apply Hnow.
Qed.

Lemma no_subscript_store_child n c :
  no_subscript_store n -> ast.child n c -> no_subscript_store c.
Proof.
  intros Hfree Hc obj key Hsub. apply (Hfree obj key).
  eapply ast.subnode_step; [exact Hc | exact Hsub].
Qed.

Lemma step_ok_refl tree s : step_ok tree s s.
Proof. unfold step_ok. auto. Qed.

Lemma step_ok_then tree t s1 s2 s3 :
  (no_subscript_store tree -> no_subscript_store t) ->
  (free_of "Call" tree -> free_of "Call" t) ->
  step_ok tree s1 s2 -> step_ok t s2 s3 -> step_ok tree s1 s3.
Proof.
  unfold step_ok. intros S C (A1 & B1 & N1 & O1) (A2 & B2 & N2 & O2).
  repeat split.
  - congruence.
  - congruence.
  - intros H. rewrite N2, N1; auto.
  - intros H. rewrite O2, O1; auto.
Qed.

Ltac below child_proof :=
  let Hfree := fresh "Hfree" in
  intros Hfree;
  first [ contradiction
        | eapply free_of_child; [exact Hfree | child_proof]
        | eapply no_subscript_store_child; [exact Hfree | child_proof] ].

Lemma eval_step e fr σ :
  exists r s', py.eval e (fr, σ) = (r, s') /\ step_ok (ast.NExpr e) (fr, σ) s'.
Proof.
  destruct (eval_effect e fr σ) as (r & out & -> & Hout).
  eexists _, _. split; [reflexivity|]. unfold step_ok. cbn. auto.
Qed.

Lemma store_step target v s :
  exists r s', py.store target v s = (r, s')
               /\ step_ok (ast.NExpr target) s s'.
Proof.
  destruct s as [fr σ].
  assert (Hnow : forall r : outcome unit,
    exists r' s', (r, (fr, σ)) = (r', s')
                  /\ step_ok (ast.NExpr target) (fr, σ) s').
  { intros r. eexists _, _. split; [reflexivity | apply step_ok_refl]. }
  destruct target as [| | | | | | | | | | | | | | | | | | | |
                      |obj key ctx| |id ctx| | |];
    try apply Hnow.
  - (* Subscript *)
    cbn [py.store]. destruct ctx; try apply Hnow.
    unfold mbind, ST_bind.
    destruct (eval_step obj fr σ) as (r1 & [fr1 σ1] & -> & H1).
    destruct (eval_effect obj fr σ) as (r1' & out1 & E1 & _).
    assert (Hstore : ~ no_subscript_store
                       (ast.NExpr (ast.Subscript obj key ast.Store))).
    { intros Hfree. apply (Hfree obj key), ast.subnode_refl. }
    assert (Hobj : step_ok (ast.NExpr (ast.Subscript obj key ast.Store))
                     (fr, σ) (fr1, σ1)).
    { eapply step_ok_then; [| |apply step_ok_refl|exact H1];
        below child_of. }
    destruct r1 as [o|]; [|eauto].
    destruct (eval_step key fr1 σ1) as (r2 & [fr2 σ2] & -> & H2).
    assert (Hkey : step_ok (ast.NExpr (ast.Subscript obj key ast.Store))
                     (fr, σ) (fr2, σ2)).
    { eapply step_ok_then; [| |exact Hobj|exact H2]; below child_of. }
    destruct r2 as [k|]; [|eauto].
    unfold py.setitem.
    destruct o; try (eexists _, _; split; [reflexivity|exact Hkey]).
    destruct k; try (eexists _, _; split; [reflexivity|exact Hkey]).
    eexists _, _. split; [reflexivity|].
    destruct Hkey as (A & B & _ & O). unfold step_ok. cbn in *.
    repeat split; auto. intros; contradiction.
  - (* Name *)
    cbn [py.store]. destruct ctx; try apply Hnow.
    case_decide; [apply Hnow|].
    eexists _, _. split; [reflexivity|]. unfold step_ok. cbn. auto.
Qed.

Lemma exec_stmt_step st s :
  exists r s', py.exec_stmt st s = (r, s') /\ step_ok (ast.NStmt st) s s'.
Proof.
  destruct s as [fr σ].
  destruct st as [| | | | |targets e| | | | | | | | | | | | | | | | | |e| | |];
    try (eexists _, _; split; [reflexivity | apply step_ok_refl]).
  - (* Assign *)
    cbn [py.exec_stmt]. unfold mbind, ST_bind.
    destruct (eval_step e fr σ) as (r1 & s1 & -> & H1).
    assert (Hvalue : step_ok (ast.NStmt (ast.Assign targets e))
                       (fr, σ) s1).
    { eapply step_ok_then; [| |apply step_ok_refl|exact H1];
        below child_of. }
    destruct r1 as [v|]; [|eauto].
    assert (Htargets : forall ts s2,
      (forall t, t ∈ ts -> t ∈ targets) ->
      step_ok (ast.NStmt (ast.Assign targets e)) (fr, σ) s2 ->
      exists r s', for_each ts (fun t => py.store t v) s2 = (r, s')
        /\ step_ok (ast.NStmt (ast.Assign targets e)) (fr, σ) s').
    { induction ts as [|t ts IHts]; intros s2 Hsub H2.
      - eexists _, _. split; [reflexivity | exact H2].
      - rewrite for_each_cons.
        destruct (store_step t v s2) as (rt & s3 & -> & H3).
        assert (Ht : ast.child (ast.NStmt (ast.Assign targets e))
                       (ast.NExpr t)).
        { unfold ast.child. cbn [ast.iter_child_nodes ast.stmt_children].
          apply elem_of_app. left. apply list_elem_of_fmap.
          exists t. split; [reflexivity|]. apply Hsub, list_elem_of_here. }
        assert (H23 : step_ok (ast.NStmt (ast.Assign targets e))
                        (fr, σ) s3).
        { eapply step_ok_then; [| |exact H2|exact H3];
            below ltac:(exact Ht). }
        destruct rt; [|eauto].
        apply IHts; [|exact H23].
        intros t' Ht'. apply Hsub, list_elem_of_further, Ht'. }
    apply Htargets; [auto | exact Hvalue].
  - (* Expr *)
    cbn [py.exec_stmt]. unfold mbind, ST_bind.
    destruct (eval_step e fr σ) as (r1 & s1 & -> & H1).
    assert (Hvalue : step_ok (ast.NStmt (ast.Expr e)) (fr, σ) s1).
    { eapply step_ok_then; [| |apply step_ok_refl|exact H1];
        below child_of. }
    destruct r1; eauto.
Qed.

Lemma exec_step bytecode fr σ :
  exists r σ',
    py.exec bytecode fr σ = (r, σ')
    /\ DANGEROUS_NAMES σ' = DANGEROUS_NAMES σ
    /\ DANGEROUS_ATTR_PARENTS σ' = DANGEROUS_ATTR_PARENTS σ
    /\ (no_subscript_store (ast.NMod bytecode) -> σ' = σ)
    /\ (free_of "Call" (ast.NMod bytecode) ->
        forall fr', r = Returned fr' -> f_stdout fr' = f_stdout fr).
Proof.
  destruct bytecode as [body]. unfold py.exec.
  assert (Hbody : forall sts s2,
    (forall st, st ∈ sts -> st ∈ body) ->
    step_ok (ast.NMod (ast.Module body)) (fr, σ) s2 ->
    exists r s', for_each sts py.exec_stmt s2 = (r, s')
      /\ step_ok (ast.NMod (ast.Module body)) (fr, σ) s').
  { induction sts as [|st sts IHsts]; intros s2 Hsub H2.
    - eexists _, _. split; [reflexivity | exact H2].
    - rewrite for_each_cons.
      destruct (exec_stmt_step st s2) as (rt & s3 & -> & H3).
      assert (Hst : ast.child (ast.NMod (ast.Module body)) (ast.NStmt st)).
      { unfold ast.child. cbn [ast.iter_child_nodes].
        apply list_elem_of_fmap. exists st. split; [reflexivity|].
        apply Hsub, list_elem_of_here. }
      assert (H23 : step_ok (ast.NMod (ast.Module body)) (fr, σ) s3).
      { eapply step_ok_then; [| |exact H2|exact H3];
          below ltac:(exact Hst). }
      destruct rt; [|eauto].
      apply IHsts; [|exact H23].
      intros st' Hst'. apply Hsub, list_elem_of_further, Hst'. }
  destruct (Hbody body (fr, σ) ltac:(auto) (step_ok_refl _ _))
    as (r & [fr' σ'] & -> & A & B & N & O).
  cbn [fst snd] in *.
  destruct r as [[]|e]; eexists _, _; (split; [reflexivity|]);
    repeat split; auto; intros Hfree fr'' Heq; [|discriminate Heq].
  injection Heq as <-. auto.
Qed.

Lemma static_checks_node_tables node σ1 σ2 :
  DANGEROUS_NAMES σ1 = DANGEROUS_NAMES σ2 ->
  DANGEROUS_ATTR_PARENTS σ1 = DANGEROUS_ATTR_PARENTS σ2 ->
  fst (static_checks_node node σ1) = fst (static_checks_node node σ2).
Proof.
  intros Hnames Hparents. run_checks.
  repeat first [ case_decide | case_match ]; simplify_eq;
    try reflexivity; rewrite ?Hnames, ?Hparents in *; contradiction.
Qed.

(** The verdict of [static_checks] is a function of the tree and of the
    two deny tables. *)
Lemma static_checks_tables tree σ1 σ2 :
  DANGEROUS_NAMES σ1 = DANGEROUS_NAMES σ2 ->
  DANGEROUS_ATTR_PARENTS σ1 = DANGEROUS_ATTR_PARENTS σ2 ->
  fst (static_checks tree σ1) = fst (static_checks tree σ2).
Proof.
  intros Hnames Hparents. unfold static_checks.
  induction (ast.walk tree) as [|n l IH]; [reflexivity|].
  rewrite !for_each_cons.
  pose proof (static_checks_node_tables n σ1 σ2 Hnames Hparents) as Hn.
  destruct (static_checks_node_outcome n σ1) as [H1|[m1 H1]];
    destruct (static_checks_node_outcome n σ2) as [H2|[m2 H2]];
    rewrite H1, H2 in Hn |- *; cbn [fst] in Hn |- *;
    first [ exact IH | discriminate Hn | exact Hn ].
Qed.

Lemma covered_compiles tree :
  covered tree = true -> py.compile tree = inr tree.
Proof.
  destruct tree as [body]. unfold covered, py.compile. intros Hbody.
  assert (Hfrag : forallb py.in_fragment body = true).
  { rewrite forallb_forall in Hbody |- *. intros st Hst.
    specialize (Hbody st Hst). destruct st; try discriminate Hbody;
      reflexivity. }
  rewrite Hfrag. reflexivity.
Qed.

(** The frame that [sandbox_run] hands to [exec] (lines 109-111). *)
Lemma covered_run
    (parse : string -> exn + ast.mod_) (code : string) (tree : ast.mod_)
    (σ : process) :
  parse code = inr tree ->
  covered tree = true ->
  (exists e, sandbox_run parse py.compile py.exec code σ = (Raised e, σ))
  \/ sandbox_run parse py.compile py.exec code σ
     = match py.exec tree
               {| f_globals := {[ "__builtins__" := VAllowedBuiltins ]};
                  f_locals := ∅; f_stdout := EmptyString |} σ with
       | (Returned fr, σ') => (Returned (f_stdout fr), σ')
       | (Raised e, σ') => (Raised e, σ')
       end.
Proof.
  intros Hparse Hcovered.
  destruct (static_checks_outcome (ast.NMod tree) σ) as [Hok|[msg Hrej]].
  2:{ left. eexists. eapply sandbox_run_rejected; eassumption. }
  rewrite (sandbox_run_accepted parse py.compile py.exec _ _ _ Hparse Hok).
  rewrite (covered_compiles tree Hcovered). right. reflexivity.
Qed.





Ltac no_such_node :=
  let Hn := fresh "Hn" in
  intros Hn; apply ast_facts.walk_complete in Hn; vm_compute in Hn;
  repeat (apply elem_of_cons in Hn as [Hn|Hn]; [discriminate Hn|]);
  inversion Hn.

Lemma print_2_2_shape : no_subscript_store (ast.NMod cpython.print_2_2).
Proof. intros obj key. no_such_node. Qed.

Lemma set_leak_shape : free_of "Call" (ast.NMod cpython.set_leak).
Proof.
  intros n Hn. apply ast_facts.walk_complete in Hn. vm_compute in Hn.
  repeat (apply elem_of_cons in Hn as [->|Hn]; [discriminate|]).
  inversion Hn.
Qed.


